(** * Coleta de dados meteorologicos (src/main.py): embedding and properties

    The program of [src/main.py] fetches the current weather of a fixed list
    of cities over HTTP, flattens each JSON payload into a thirteen-field
    record, appends it to the SQLite table [dados_clima] and finally lists
    the most recent rows.

    The embedding is shallow.  Python values decoded from JSON are an
    inductive type, Python exceptions are values of an error type, and the
    effects of the program (console, clock, network, database file,
    connection handles) are threaded through a reader/state/error monad
    [M].  The network and the wall clock are the environment of a run; the
    database file is part of the state.  The SQL statements of the source
    are given their SQLite meaning over a table that carries its column
    definitions as data. *)

From Stdlib Require Import ZArith String List Floats.SpecFloat.
From stdpp Require Import base option list gmap strings sorting.

Local Open Scope Z_scope.
Set Warnings "-register-all".       (* pyval nests through list and prod *)

(** ** Python values

    [response.json()] yields [None], a [bool], an [int] (unbounded), a
    [float] (IEEE double, here its specification-level form), a [str]
    (kept as its UTF-8 bytes), a [list] or a [dict] with string keys.  A
    [dict] is an association list whose first binding of a key is the
    binding of the dict. *)

Inductive pyval : Type :=
| PNone
| PBool (b : bool)
| PInt (z : Z)
| PFloat (f : spec_float)
| PStr (s : string)
| PList (l : list pyval)
| PDict (d : list (string * pyval)).

(** The exceptions the program can meet.  The three [Requests...] ones are
    the classes of [requests.exceptions]; the four [Sqlite...] ones are the
    subclasses of [sqlite3.Error] raised by the statements of the source. *)

Inductive excecao : Type :=
| ValueError (msg : string)
| AttributeError
| IndexError
| KeyError
| TypeError
| OverflowError
| RequestsTimeout
| RequestsJSONDecodeError
| RequestsOutra (causa : string)
| SqliteIntegrityError
| SqliteOperationalError
| SqliteInterfaceError
| SqliteProgrammingError.

(** [isinstance(e, requests.exceptions.RequestException)].  Since requests
    2.27 the error of [response.json()] on a body that is not JSON is
    [requests.exceptions.JSONDecodeError], a [RequestException]. *)
Definition instancia_RequestException (e : excecao) : bool :=
  match e with
  | RequestsTimeout | RequestsJSONDecodeError | RequestsOutra _ => true
  | _ => false
  end.

(** [isinstance(e, ValueError)]: [json.JSONDecodeError], a base class of the
    requests one, derives from [ValueError]. *)
Definition instancia_ValueError (e : excecao) : bool :=
  match e with
  | ValueError _ | RequestsJSONDecodeError => true
  | _ => false
  end.

(** [isinstance(e, sqlite3.Error)]. *)
Definition instancia_sqlite3_Error (e : excecao) : bool :=
  match e with
  | SqliteIntegrityError | SqliteOperationalError
  | SqliteInterfaceError | SqliteProgrammingError => true
  | _ => false
  end.

Inductive resultado (A : Type) : Type :=
| Retorno (a : A)
| Excecao (e : excecao).
Arguments Retorno {A} a.
Arguments Excecao {A} e.

(** ** Pure Python operations used by the source *)

(** Truth value of an object, as tested by [if dados_raw:]. *)
Definition verdadeiro (v : pyval) : bool :=
  match v with
  | PNone => false
  | PBool b => b
  | PInt z => negb (z =? 0)
  | PFloat (S754_zero _) => false
  | PFloat _ => true
  | PStr s => negb (String.eqb s "")
  | PList l => match l with [] => false | _ => true end
  | PDict d => match d with [] => false | _ => true end
  end.

Fixpoint buscar (k : string) (d : list (string * pyval)) : option pyval :=
  match d with
  | [] => None
  | (k', v) :: d' => if String.eqb k k' then Some v else buscar k d'
  end.

(** [v.get(k, padrao)]: only a dict has the method. *)
Definition metodo_get (v : pyval) (k : string) (padrao : pyval)
  : resultado pyval :=
  match v with
  | PDict d => Retorno (default padrao (buscar k d))
  | _ => Excecao AttributeError
  end.

(** A continuation byte of UTF-8 is [10xxxxxx]. *)
Definition byte_de_continuacao (c : Ascii.ascii) : bool :=
  let n := Z.of_nat (Ascii.nat_of_ascii c) in (128 <=? n) && (n <? 192).

Fixpoint bytes_de_continuacao (s : string) : string :=
  match s with
  | String c s' =>
      if byte_de_continuacao c then String c (bytes_de_continuacao s')
      else EmptyString
  | EmptyString => EmptyString
  end.

(** [v[0]].  A list and a str are indexed by position, a dict by key (and
    the key [0] is no string, so it is never there), anything else is not
    subscriptable. *)
Definition indice_zero (v : pyval) : resultado pyval :=
  match v with
  | PList (x :: _) => Retorno x
  | PList [] => Excecao IndexError
  | PStr (String c s) => Retorno (PStr (String c (bytes_de_continuacao s)))
  | PStr EmptyString => Excecao IndexError
  | PDict _ => Excecao KeyError
  | PNone | PBool _ | PInt _ | PFloat _ => Excecao TypeError
  end.

(** ** Environment, state and the monad of the program *)

(** What [requests.get] can do: answer with a status and a body ([None]
    when the body is not JSON), time out, or fail at transport level. *)
Record resposta : Type := Resposta {
  status_code : Z;
  corpo : option pyval
}.

Inductive resultado_http : Type :=
| Respondeu (r : resposta)
| EsgotouTempo
| FalhouTransporte (causa : string).

Record ambiente : Type := Ambiente {
  rede : string -> resultado_http;
  relogio : nat -> string
}.

(** One fragment of a printed line: literal text of the f-string, or a
    value formatted in place.  Rendering of values to text is not needed
    by any property and is left symbolic. *)
Inductive fragmento : Type :=
| Lit (s : string)
| Fmt (v : pyval)
| FmtCapitalizado (s : string)
| FmtExcecao (e : excecao)
| FmtTamanho (n : nat).

Definition linha_console : Type := list fragmento.

(** SQLite storage classes of the values the program binds. *)
Inductive sqlval : Type :=
| SNull
| SInteger (z : Z)
| SReal (f : spec_float)
| SText (s : string).

Inductive afinidade : Type := TEXT | REAL | INTEGER.

Record coluna : Type := Coluna {
  col_nome : string;
  col_tipo : afinidade;
  col_nao_nulo : bool
}.

(** A table of the model has the rowid alias [id INTEGER PRIMARY KEY
    AUTOINCREMENT] and the columns listed in [tb_colunas].  Rows are keyed
    by [id]; a row maps a column name to its cell.  [tb_seq] is the row of
    [sqlite_sequence] for the table. *)
Record tabela : Type := Tabela {
  tb_colunas : list coluna;
  tb_linhas : gmap Z (gmap string sqlval);
  tb_seq : Z
}.

Inductive evento : Type :=
| Abriu (h : nat)
| Fechou (h : nat).

Record estado : Type := Estado {
  arquivo : gmap string tabela;
  eventos : list evento;
  requisicoes : list string;
  console : list linha_console;
  tique : nat
}.

Definition M (A : Type) : Type :=
  ambiente -> estado -> resultado A * estado.

#[global] Instance M_ret : MRet M := fun A a _ st => (Retorno a, st).
#[global] Instance M_bind : MBind M := fun A B f m amb st =>
  match m amb st with
  | (Retorno a, st') => f a amb st'
  | (Excecao e, st') => (Excecao e, st')
  end.

Definition levantar {A} (e : excecao) : M A := fun _ st => (Excecao e, st).

Definition py {A} (r : resultado A) : M A := fun _ st => (r, st).

(** [try: m except ...: ...]: [trata e] is the handler of the first
    matching [except] clause, [None] when no clause matches. *)
Definition tentar {A} (m : M A) (trata : excecao -> option (M A)) : M A :=
  fun amb st =>
    match m amb st with
    | (Retorno a, st') => (Retorno a, st')
    | (Excecao e, st') =>
        match trata e with
        | Some h => h amb st'
        | None => (Excecao e, st')
        end
    end.

Definition print (l : linha_console) : M unit := fun _ st =>
  (Retorno tt,
   {| arquivo := arquivo st; eventos := eventos st;
      requisicoes := requisicoes st; console := console st ++ [l];
      tique := tique st |}).

(** [datetime.now().strftime('%Y-%m-%d %H:%M:%S')]. *)
Definition datetime_now : M pyval := fun amb st =>
  (Retorno (PStr (relogio amb (tique st))),
   {| arquivo := arquivo st; eventos := eventos st;
      requisicoes := requisicoes st; console := console st;
      tique := S (tique st) |}).

(** ** Record normalizer *)

Record dados : Type := Dados {
  cidade : pyval;
  pais : pyval;
  temperatura : pyval;
  sensacao_termica : pyval;
  temp_minima : pyval;
  temp_maxima : pyval;
  pressao : pyval;
  umidade : pyval;
  descricao : pyval;
  velocidade_vento : pyval;
  nuvens : pyval;
  data_hora : pyval;
  timestamp_api : pyval
}.

(** [dados_raw.get(secao, {}).get(chave)] *)
Definition get_get (dados_raw : pyval) (secao chave : string) : M pyval :=
  o ← py (metodo_get dados_raw secao (PDict []));
  py (metodo_get o chave PNone).

(** [dados_raw.get(lista, [{}])[0].get(chave)] *)
Definition get_0_get (dados_raw : pyval) (lista chave : string) : M pyval :=
  l ← py (metodo_get dados_raw lista (PList [PDict []]));
  o ← py (indice_zero l);
  py (metodo_get o chave PNone).

Definition estruturar_dados (dados_raw : pyval) : M dados :=
  v_cidade ← py (metodo_get dados_raw "name" PNone);
  v_pais ← get_get dados_raw "sys" "country";
  v_temperatura ← get_get dados_raw "main" "temp";
  v_sensacao ← get_get dados_raw "main" "feels_like";
  v_minima ← get_get dados_raw "main" "temp_min";
  v_maxima ← get_get dados_raw "main" "temp_max";
  v_pressao ← get_get dados_raw "main" "pressure";
  v_umidade ← get_get dados_raw "main" "humidity";
  v_descricao ← get_0_get dados_raw "weather" "description";
  v_vento ← get_get dados_raw "wind" "speed";
  v_nuvens ← get_get dados_raw "clouds" "all";
  v_data_hora ← datetime_now;
  v_dt ← py (metodo_get dados_raw "dt" PNone);
  mret {| cidade := v_cidade; pais := v_pais; temperatura := v_temperatura;
          sensacao_termica := v_sensacao; temp_minima := v_minima;
          temp_maxima := v_maxima; pressao := v_pressao;
          umidade := v_umidade; descricao := v_descricao;
          velocidade_vento := v_vento; nuvens := v_nuvens;
          data_hora := v_data_hora; timestamp_api := v_dt |}.

(** ** Config loader *)

Definition nl : string := String (Ascii.ascii_of_nat 10) EmptyString.

(** [s * n] on a str. *)
Fixpoint repetir (s : string) (n : nat) : string :=
  match n with
  | O => EmptyString
  | S n' => s +:+ repetir s n'
  end.

Definition API_KEY : string := "3a5eb8cc097c4eb15bf47deb31c0f8a6".

Definition carregar_configuracoes : M string :=
  let api_key := API_KEY in
  if String.eqb api_key "" then
    levantar (ValueError "API_KEY não configurada")
  else
    print [Lit "✓ API Key carregada com sucesso!"];;
    mret api_key.

(** ** Weather client *)

Definition montar_url (cidade api_key : string) : string :=
  "https://api.openweathermap.org/data/2.5/weather?q=" +:+ cidade
  +:+ "&appid=" +:+ api_key +:+ "&units=metric&lang=pt_br".

(** [requests.get(url, timeout=10)]: the URL is recorded, then the network
    decides. *)
Definition requests_get (url : string) : M resposta := fun amb st =>
  let st' := {| arquivo := arquivo st; eventos := eventos st;
                requisicoes := requisicoes st ++ [url];
                console := console st; tique := tique st |} in
  match rede amb url with
  | Respondeu r => (Retorno r, st')
  | EsgotouTempo => (Excecao RequestsTimeout, st')
  | FalhouTransporte causa => (Excecao (RequestsOutra causa), st')
  end.

(** [response.json()] *)
Definition response_json (response : resposta) : M pyval :=
  match corpo response with
  | Some v => mret v
  | None => levantar RequestsJSONDecodeError
  end.

Definition obter_dados_clima (cidade api_key : string) : M pyval :=
  let url := montar_url cidade api_key in
  tentar
    (print [Lit "Realizando requisição para a cidade: "; Lit cidade;
            Lit "..."];;
     response ← requests_get url;
     if status_code response =? 200 then
       print [Lit "✓ Dados obtidos com sucesso! (Status: ";
              Fmt (PInt (status_code response)); Lit ")"];;
       response_json response
     else
       print [Lit "✗ Erro na requisição: ";
              Fmt (PInt (status_code response))];;
       erro ← response_json response;
       mensagem ← py (metodo_get erro "message" (PStr "Erro desconhecido"));
       print [Lit "Mensagem: "; Fmt mensagem];;
       mret PNone)
    (fun e =>
       match e with
       | RequestsTimeout =>
           Some (print [Lit "✗ Erro: Timeout na requisição"];; mret PNone)
       | _ =>
           if instancia_RequestException e then
             Some (print [Lit "✗ Erro na requisição: "; FmtExcecao e];;
                   mret PNone)
           else None
       end).

(** ** Store

    The statements of the source, given their SQLite meaning.  Three
    things SQLite or the [sqlite3] module do are part of that meaning:
    parameters are bound before the statement runs (a list or a dict is
    refused, an [int] outside the signed 64-bit range overflows, a NaN is
    stored as NULL); [AUTOINCREMENT] takes the next [id] above both the
    largest [id] of the table and the value of [sqlite_sequence], and gives
    up when that was the largest 64-bit integer; [NOT NULL] is checked on
    the row about to be written.  Failures of the medium (disk full, file
    locked) are outside the model, and so is the column-affinity coercion
    of a stored cell, which can change its storage class but never makes it
    NULL or changes a text put in a [TEXT] column. *)

Definition NOME_TABELA : string := "dados_clima".

Definition INT64_MAX : Z := 9223372036854775807.
Definition INT64_MIN : Z := -9223372036854775808.

(** The column definitions of the [CREATE TABLE] statement, after [id]. *)
Definition esquema_clima : list coluna :=
  [ Coluna "cidade" TEXT true;
    Coluna "pais" TEXT false;
    Coluna "temperatura" REAL false;
    Coluna "sensacao_termica" REAL false;
    Coluna "temp_minima" REAL false;
    Coluna "temp_maxima" REAL false;
    Coluna "pressao" INTEGER false;
    Coluna "umidade" INTEGER false;
    Coluna "descricao" TEXT false;
    Coluna "velocidade_vento" REAL false;
    Coluna "nuvens" INTEGER false;
    Coluna "data_hora" TEXT false;
    Coluna "timestamp_api" INTEGER false ].

(** The column list of the [INSERT] statement. *)
Definition colunas_insert : list string :=
  [ "cidade"; "pais"; "temperatura"; "sensacao_termica"; "temp_minima";
    "temp_maxima"; "pressao"; "umidade"; "descricao"; "velocidade_vento";
    "nuvens"; "data_hora"; "timestamp_api" ].

(** The column list of the [SELECT] statement. *)
Definition colunas_select : list string :=
  [ "cidade"; "temperatura"; "descricao"; "data_hora" ].

(** Binding of one Python value to a [?]. *)
Definition vincular (v : pyval) : resultado sqlval :=
  match v with
  | PNone => Retorno SNull
  | PBool b => Retorno (SInteger (if b then 1 else 0))
  | PInt z =>
      if (INT64_MIN <=? z) && (z <=? INT64_MAX) then Retorno (SInteger z)
      else Excecao OverflowError
  | PFloat S754_nan => Retorno SNull
  | PFloat f => Retorno (SReal f)
  | PStr s => Retorno (SText s)
  | PList _ | PDict _ => Excecao SqliteInterfaceError
  end.

(** Parameters are bound from left to right; the first failure wins. *)
Fixpoint vincular_todos (vs : list pyval) : resultado (list sqlval) :=
  match vs with
  | [] => Retorno []
  | v :: vs' =>
      match vincular v with
      | Excecao e => Excecao e
      | Retorno x =>
          match vincular_todos vs' with
          | Excecao e => Excecao e
          | Retorno xs => Retorno (x :: xs)
          end
      end
  end.

(** A cell read back by [fetchall]. *)
Definition para_python (x : sqlval) : pyval :=
  match x with
  | SNull => PNone
  | SInteger z => PInt z
  | SReal f => PFloat f
  | SText s => PStr s
  end.

Definition eh_nulo (x : sqlval) : bool :=
  match x with SNull => true | _ => false end.

Definition tem_coluna (t : tabela) (nome : string) : bool :=
  existsb (fun c => String.eqb (col_nome c) nome) (tb_colunas t).

Fixpoint valor_de (nome : string) (atribuicoes : list (string * sqlval))
  : sqlval :=
  match atribuicoes with
  | [] => SNull
  | (n, x) :: resto => if String.eqb nome n then x else valor_de nome resto
  end.

(** The largest [id] ever given out: [sqlite_sequence] or a stored row. *)
Definition maior_id (t : tabela) : Z :=
  foldr Z.max (tb_seq t) (map fst (map_to_list (tb_linhas t))).

(** The row the statement writes: the named columns get their values, any
    other column of the table its default, NULL. *)
Definition montar_linha (t : tabela) (atribuicoes : list (string * sqlval))
  : list (string * sqlval) :=
  map (fun c => (col_nome c, valor_de (col_nome c) atribuicoes))
      (tb_colunas t).

Definition viola_nao_nulo (t : tabela) (linha : list (string * sqlval))
  : bool :=
  existsb (fun c => col_nao_nulo c && eh_nulo (valor_de (col_nome c) linha))
          (tb_colunas t).

(** [INSERT INTO t (nomes) VALUES (?, ...)] with [params]. *)
Definition sql_insert (nomes : list string) (params : list pyval)
  (t : tabela) : resultado tabela :=
  if negb (forallb (tem_coluna t) nomes) then Excecao SqliteOperationalError
  else
    match vincular_todos params with
    | Excecao e => Excecao e
    | Retorno valores =>
        let id := maior_id t + 1 in
        if INT64_MAX <? id then Excecao SqliteOperationalError
        else
          let linha := montar_linha t (zip nomes valores) in
          if viola_nao_nulo t linha then Excecao SqliteIntegrityError
          else Retorno {| tb_colunas := tb_colunas t;
                          tb_linhas := <[id := list_to_map linha]>
                                         (tb_linhas t);
                          tb_seq := id |}
    end.

(** [ORDER BY id DESC] *)
Definition id_decrescente (a b : Z * gmap string sqlval) : Prop :=
  b.1 <= a.1.

#[global] Instance id_decrescente_dec a b : Decision (id_decrescente a b).
Proof. unfold id_decrescente. apply _. Defined.

Definition ordenadas (t : tabela) : list (Z * gmap string sqlval) :=
  merge_sort id_decrescente (map_to_list (tb_linhas t)).

(** [LIMIT n]: a negative [n] is no limit. *)
Definition limitar {A} (n : Z) (l : list A) : list A :=
  if n <? 0 then l else take (Z.to_nat n) l.

Definition celula (nome : string) (linha : gmap string sqlval) : pyval :=
  para_python (default SNull (linha !! nome)).

(** One tuple of [fetchall]: cidade, temperatura, descricao, data_hora. *)
Definition registro : Type := pyval * pyval * pyval * pyval.

Definition projetar (linha : gmap string sqlval) : registro :=
  (celula "cidade" linha, celula "temperatura" linha,
   celula "descricao" linha, celula "data_hora" linha).

(** [SELECT cidade, temperatura, descricao, data_hora FROM t
     ORDER BY id DESC LIMIT ?] with [limite]. *)
Definition sql_select (limite : Z) (t : tabela) : resultado (list registro) :=
  if negb (forallb (tem_coluna t) colunas_select) then
    Excecao SqliteOperationalError
  else
    match vincular (PInt limite) with
    | Excecao e => Excecao e
    | Retorno _ =>
        Retorno (map (fun r => projetar r.2) (limitar limite (ordenadas t)))
    end.

(** *** Connections *)

Definition abriu (h : nat) (e : evento) : bool :=
  match e with Abriu h' => Nat.eqb h h' | Fechou _ => false end.

Definition fechou (h : nat) (e : evento) : bool :=
  match e with Fechou h' => Nat.eqb h h' | Abriu _ => false end.

Definition conexao_aberta (h : nat) (evs : list evento) : bool :=
  existsb (abriu h) evs && negb (existsb (fechou h) evs).

Definition registrar (e : evento) : M unit := fun _ st =>
  (Retorno tt,
   {| arquivo := arquivo st; eventos := eventos st ++ [e];
      requisicoes := requisicoes st; console := console st;
      tique := tique st |}).

Definition identificador (e : evento) : nat :=
  match e with Abriu h | Fechou h => h end.

(** A handle no event has named yet. *)
Definition novo_identificador (evs : list evento) : nat :=
  foldr (fun e n => Nat.max (S (identificador e)) n) O evs.

(** [sqlite3.connect('projeto_rpa.db')]: a fresh handle on the file. *)
Definition sqlite3_connect : M nat := fun amb st =>
  let h := novo_identificador (eventos st) in
  match registrar (Abriu h) amb st with
  | (_, st') => (Retorno h, st')
  end.

(** Any use of a closed connection is a [sqlite3.ProgrammingError]. *)
Definition exigir_aberta (conn : nat) : M unit := fun _ st =>
  if conexao_aberta conn (eventos st) then (Retorno tt, st)
  else (Excecao SqliteProgrammingError, st).

(** [conn.commit()]: every statement of the program is followed by its
    commit, and no other reader exists, so a statement writes the file
    when it runs and the commit itself has nothing left to do. *)
Definition conn_commit (conn : nat) : M unit := exigir_aberta conn.

(** [conn.close()]; closing twice is accepted by [sqlite3]. *)
Definition conn_close (conn : nat) : M unit := registrar (Fechou conn).

Definition gravar (t : tabela) : M unit := fun _ st =>
  (Retorno tt,
   {| arquivo := <[NOME_TABELA := t]> (arquivo st); eventos := eventos st;
      requisicoes := requisicoes st; console := console st;
      tique := tique st |}).

Definition ler_tabela : M (option tabela) := fun _ st =>
  (Retorno (arquivo st !! NOME_TABELA), st).

(** [CREATE TABLE IF NOT EXISTS dados_clima (...)] *)
Definition execute_create (conn : nat) : M unit :=
  exigir_aberta conn;;
  atual ← ler_tabela;
  match atual with
  | Some _ => mret tt
  | None => gravar {| tb_colunas := esquema_clima; tb_linhas := ∅;
                      tb_seq := 0 |}
  end.

Definition execute_insert (conn : nat) (params : list pyval) : M unit :=
  exigir_aberta conn;;
  atual ← ler_tabela;
  match atual with
  | None => levantar SqliteOperationalError
  | Some t => t' ← py (sql_insert colunas_insert params t); gravar t'
  end.

Definition execute_select (conn : nat) (limite : Z) : M (list registro) :=
  exigir_aberta conn;;
  atual ← ler_tabela;
  match atual with
  | None => levantar SqliteOperationalError
  | Some t => py (sql_select limite t)
  end.

Definition criar_banco_dados : M nat :=
  conn ← sqlite3_connect;
  execute_create conn;;
  conn_commit conn;;
  print [Lit "✓ Banco de dados 'projeto_rpa.db' criado/verificado com sucesso!"];;
  mret conn.

Definition inserir_dados_banco (conn : nat) (d : dados) : M unit :=
  execute_insert conn
    [ cidade d; pais d; temperatura d; sensacao_termica d; temp_minima d;
      temp_maxima d; pressao d; umidade d; descricao d; velocidade_vento d;
      nuvens d; data_hora d; timestamp_api d ];;
  conn_commit conn;;
  print [Lit "✓ Dados da cidade '"; Fmt (cidade d);
         Lit "' inseridos no banco com sucesso!"].

(** [s.capitalize()]: only a str has the method. *)
Definition capitalize (v : pyval) : resultado fragmento :=
  match v with
  | PStr s => Retorno (FmtCapitalizado s)
  | _ => Excecao AttributeError
  end.

Definition exibir_dados_formatados (d : dados) : M unit :=
  print [Lit (nl +:+ repetir "=" 60)];;
  print [Lit "DADOS METEOROLÓGICOS - "; Fmt (cidade d); Lit ", ";
         Fmt (pais d)];;
  print [Lit (repetir "=" 60)];;
  print [Lit "Temperatura: "; Fmt (temperatura d); Lit "°C"];;
  print [Lit "Sensação Térmica: "; Fmt (sensacao_termica d); Lit "°C"];;
  print [Lit "Mín/Máx: "; Fmt (temp_minima d); Lit "°C / ";
         Fmt (temp_maxima d); Lit "°C"];;
  print [Lit "Umidade: "; Fmt (umidade d); Lit "%"];;
  print [Lit "Pressão: "; Fmt (pressao d); Lit " hPa"];;
  capitalizada ← py (capitalize (descricao d));
  print [Lit "Descrição: "; capitalizada];;
  print [Lit "Velocidade do Vento: "; Fmt (velocidade_vento d); Lit " m/s"];;
  print [Lit "Nebulosidade: "; Fmt (nuvens d); Lit "%"];;
  print [Lit "Data/Hora da Consulta: "; Fmt (data_hora d)];;
  print [Lit (repetir "=" 60 +:+ nl)].

Fixpoint para_cada {A} (corpo_laco : A -> M unit) (l : list A) : M unit :=
  match l with
  | [] => mret tt
  | x :: l' => corpo_laco x;; para_cada corpo_laco l'
  end.

Definition imprimir_registro (reg : registro) : M unit :=
  let '(c, t, d, h) := reg in
  print [Lit "• "; Fmt c; Lit " - "; Fmt t; Lit "°C - "; Fmt d; Lit " - ";
         Fmt h].

(** The rows fetched are returned as well, so that properties can speak
    of them; the source only prints them. *)
Definition consultar_dados_banco (conn : nat) (limite : Z)
  : M (list registro) :=
  registros ← execute_select conn limite;
  (match registros with
   | [] => mret tt
   | _ =>
       print [Lit (nl +:+ "📊 Últimos "); FmtTamanho (length registros);
              Lit " registros no banco de dados:"];;
       print [Lit (repetir "-" 70)];;
       para_cada imprimir_registro registros;;
       print [Lit (repetir "-" 70)]
   end);;
  mret registros.

(** ** Orchestrator *)

Definition cidades : list string :=
  [ "London"; "Sao Paulo"; "New York"; "Tokyo"; "Paris" ].

(** The body of [for cidade in cidades]. *)
Definition processar_cidade (conn : nat) (api_key cidade : string) : M unit :=
  print [Lit (nl +:+ "--- Processando: "); Lit cidade; Lit " ---"];;
  dados_raw ← obter_dados_clima cidade api_key;
  (if verdadeiro dados_raw then
     dados_estruturados ← estruturar_dados dados_raw;
     exibir_dados_formatados dados_estruturados;;
     inserir_dados_banco conn dados_estruturados
   else mret tt);;
  print [].

(** [try: m finally: f] *)
Definition finalmente {A} (m : M A) (f : M unit) : M A := fun amb st =>
  match m amb st with
  | (r, st') =>
      match f amb st' with
      | (Retorno _, st'') => (r, st'')
      | (Excecao e, st'') => (Excecao e, st'')
      end
  end.

Definition main : M unit :=
  print [Lit (nl +:+ "🌤️ SISTEMA DE COLETA DE DADOS METEOROLÓGICOS - RPA")];;
  print [Lit (repetir "=" 70)];;
  finalmente
    (tentar
       (api_key ← carregar_configuracoes;
        conn ← criar_banco_dados;
        para_cada (processar_cidade conn api_key) cidades;;
        consultar_dados_banco conn 10;;
        conn_close conn;;
        print [Lit (nl +:+ "✓ Processo concluído com sucesso!")];;
        print [Lit "✓ Banco de dados: projeto_rpa.db"])
       (fun e =>
          if instancia_ValueError e then
            Some (print [Lit (nl +:+ "✗ Erro de configuração: ");
                         FmtExcecao e])
          else if instancia_sqlite3_Error e then
            Some (print [Lit (nl +:+ "✗ Erro no banco de dados: ");
                         FmtExcecao e])
          else
            Some (print [Lit (nl +:+ "✗ Erro inesperado: ");
                         FmtExcecao e])))
    (print [Lit (nl +:+ repetir "=" 70)]).

Definition estado_inicial (db : gmap string tabela) : estado :=
  {| arquivo := db; eventos := []; requisicoes := []; console := [];
     tique := 0 |}.

(** * Vocabulary of the properties *)

(** ** Record normalizer *)

(** The state after one reading of the clock. *)
Definition apos_relogio (st : estado) : estado :=
  {| arquivo := arquivo st; eventos := eventos st;
     requisicoes := requisicoes st; console := console st;
     tique := S (tique st) |}.

(** The shapes under which every lookup of [estruturar_dados] finds the
    method it calls: a section that is present is an object, and
    [weather], when present, is a list that starts with an object. *)
Definition secao_bem_formada (d : list (string * pyval)) (secao : string)
  : bool :=
  match buscar secao d with
  | None | Some (PDict _) => true
  | Some _ => false
  end.

Definition weather_bem_formado (d : list (string * pyval)) : bool :=
  match buscar "weather" d with
  | None | Some (PList (PDict _ :: _)) => true
  | Some _ => false
  end.

Definition bem_formado (d : list (string * pyval)) : bool :=
  secao_bem_formada d "sys" && secao_bem_formada d "main"
  && weather_bem_formado d
  && secao_bem_formada d "wind" && secao_bem_formada d "clouds".

(** The value at [secao.chave], when the path exists. *)
Definition fonte_secao (secao chave : string) (d : list (string * pyval))
  : option pyval :=
  match buscar secao d with
  | Some (PDict o) => buscar chave o
  | _ => None
  end.

(** The value at [weather[0].description], when the path exists. *)
Definition fonte_weather (d : list (string * pyval)) : option pyval :=
  match buscar "weather" d with
  | Some (PList (PDict o :: _)) => buscar "description" o
  | _ => None
  end.

(** Every field but [cidade] and [data_hora], with its source path. *)
Definition fontes
  : list ((dados -> pyval) * (list (string * pyval) -> option pyval)) :=
  [ (pais, fonte_secao "sys" "country");
    (temperatura, fonte_secao "main" "temp");
    (sensacao_termica, fonte_secao "main" "feels_like");
    (temp_minima, fonte_secao "main" "temp_min");
    (temp_maxima, fonte_secao "main" "temp_max");
    (pressao, fonte_secao "main" "pressure");
    (umidade, fonte_secao "main" "humidity");
    (descricao, fonte_weather);
    (velocidade_vento, fonte_secao "wind" "speed");
    (nuvens, fonte_secao "clouds" "all");
    (timestamp_api, buscar "dt") ].

(** The record of a well-shaped object [d] normalized at time [agora]. *)
Definition projecao (d : list (string * pyval)) (agora : string) : dados :=
  {| cidade := default PNone (buscar "name" d);
     pais := default PNone (fonte_secao "sys" "country" d);
     temperatura := default PNone (fonte_secao "main" "temp" d);
     sensacao_termica := default PNone (fonte_secao "main" "feels_like" d);
     temp_minima := default PNone (fonte_secao "main" "temp_min" d);
     temp_maxima := default PNone (fonte_secao "main" "temp_max" d);
     pressao := default PNone (fonte_secao "main" "pressure" d);
     umidade := default PNone (fonte_secao "main" "humidity" d);
     descricao := default PNone (fonte_weather d);
     velocidade_vento := default PNone (fonte_secao "wind" "speed" d);
     nuvens := default PNone (fonte_secao "clouds" "all" d);
     data_hora := PStr agora;
     timestamp_api := default PNone (buscar "dt" d) |}.

(** ** Console and weather client *)

(** The state after some printed lines. *)
Definition imprimiu (st : estado) (linhas : list linha_console) : estado :=
  {| arquivo := arquivo st; eventos := eventos st;
     requisicoes := requisicoes st; console := console st ++ linhas;
     tique := tique st |}.

(** The state after one request and some printed lines. *)
Definition apos_requisicao (st : estado) (url : string)
  (linhas : list linha_console) : estado :=
  {| arquivo := arquivo st; eventos := eventos st;
     requisicoes := requisicoes st ++ [url];
     console := console st ++ linhas; tique := tique st |}.

Definition linha_inicio (cidade : string) : linha_console :=
  [Lit "Realizando requisição para a cidade: "; Lit cidade; Lit "..."].

(** The diagnostic printed for a failure the client absorbs: a status
    other than 200 whose body is a JSON object or is not JSON at all, a
    timeout, a transport failure.  [None] for the outcomes that are not
    such failures. *)
Definition diagnostico (r : resultado_http) : option (list linha_console) :=
  match r with
  | Respondeu (Resposta sc corpo_resposta) =>
      if sc =? 200 then None
      else
        match corpo_resposta with
        | Some (PDict d) =>
            Some [ [Lit "✗ Erro na requisição: "; Fmt (PInt sc)];
                   [Lit "Mensagem: ";
                    Fmt (default (PStr "Erro desconhecido")
                                 (buscar "message" d))] ]
        | Some _ => None
        | None =>
            Some [ [Lit "✗ Erro na requisição: "; Fmt (PInt sc)];
                   [Lit "✗ Erro na requisição: ";
                    FmtExcecao RequestsJSONDecodeError] ]
        end
  | EsgotouTempo => Some [ [Lit "✗ Erro: Timeout na requisição"] ]
  | FalhouTransporte causa =>
      Some [ [Lit "✗ Erro na requisição: ";
              FmtExcecao (RequestsOutra causa)] ]
  end.

Definition linha_processando (c : string) : linha_console :=
  [Lit (nl +:+ "--- Processando: "); Lit c; Lit " ---"].

(** The state after the loop body met an absorbed failure. *)
Definition apos_falha (st : estado) (url c : string)
  (diag : list linha_console) : estado :=
  imprimiu (apos_requisicao (imprimiu st [linha_processando c]) url
              (linha_inicio c :: diag)) [[]].

(** ** Store *)

(** The file after [CREATE TABLE IF NOT EXISTS]. *)
Definition apos_create (db : gmap string tabela) : gmap string tabela :=
  match db !! NOME_TABELA with
  | Some _ => db
  | None => <[NOME_TABELA := {| tb_colunas := esquema_clima; tb_linhas := ∅;
                                tb_seq := 0 |}]> db
  end.

Definition linha_banco_criado : linha_console :=
  [Lit "✓ Banco de dados 'projeto_rpa.db' criado/verificado com sucesso!"].

(** The table [CREATE TABLE] makes. *)
Definition tabela_nova : tabela :=
  {| tb_colunas := esquema_clima; tb_linhas := ∅; tb_seq := 0 |}.

(** The table of the file, or a new one when the file has none. *)
Definition tabela_de (st : estado) : tabela :=
  default tabela_nova (arquivo st !! NOME_TABELA).

(** The number of rows of [dados_clima] in the file. *)
Definition numero_de_linhas (st : estado) : nat :=
  match arquivo st !! NOME_TABELA with
  | Some t => size (tb_linhas t)
  | None => O
  end.

(** The tuple of parameters of the [INSERT]. *)
Definition parametros (d : dados) : list pyval :=
  [ cidade d; pais d; temperatura d; sensacao_termica d; temp_minima d;
    temp_maxima d; pressao d; umidade d; descricao d; velocidade_vento d;
    nuvens d; data_hora d; timestamp_api d ].

Definition linha_inserido (d : dados) : linha_console :=
  [Lit "✓ Dados da cidade '"; Fmt (cidade d);
   Lit "' inseridos no banco com sucesso!"].

(** The state after a table was written and some lines printed. *)
Definition apos_gravar (st : estado) (t : tabela)
  (linhas : list linha_console) : estado :=
  {| arquivo := <[NOME_TABELA := t]> (arquivo st); eventos := eventos st;
     requisicoes := requisicoes st; console := console st ++ linhas;
     tique := tique st |}.



(** Every stored row has a cell [cidade] that is not NULL. *)
Definition cidade_nao_nula (t : tabela) : Prop :=
  forall id linha,
    tb_linhas t !! id = Some linha ->
    exists x, linha !! "cidade" = Some x /\ x <> SNull.

(** The table of the file, when there is one, is the table of the
    program: its columns are those of the [CREATE TABLE] statement, and
    no stored row has a NULL [cidade]. *)
Definition invariante_cidade (st : estado) : Prop :=
  forall t,
    arquivo st !! NOME_TABELA = Some t ->
    tb_colunas t = esquema_clima /\ cidade_nao_nula t.


(** Newest first, strictly: keys are distinct. *)
Definition id_maior (a b : Z * gmap string sqlval) : Prop := b.1 < a.1.

(** The line printed for one fetched row. *)
Definition linha_registro (reg : registro) : linha_console :=
  let '(c, t, d, h) := reg in
  [Lit "• "; Fmt c; Lit " - "; Fmt t; Lit "°C - "; Fmt d; Lit " - "; Fmt h].

(** ** Display and loop body *)




(** ** Whole runs *)

(** A computation takes every state to a state related to it by [R],
    whatever it returns or raises. *)
Definition respeita (R : relation estado) {A} (m : M A) : Prop :=
  forall amb st, R st (m amb st).2.

(** The relations of interest: the invariant of the table is kept; the
    handle events are as they were. *)
Definition mantem_invariante : relation estado :=
  fun st st' => invariante_cidade st -> invariante_cidade st'.

Definition mesmos_eventos : relation estado :=
  fun st st' => eventos st' = eventos st.

(** What [main] does between opening and closing the connection. *)
Definition coletar_e_consultar (conn : nat) (api_key : string)
  : M (list registro) :=
  para_cada (processar_cidade conn api_key) cidades;;
  consultar_dados_banco conn 10.

(** The state in which [main] enters the loop. *)
Definition estado_no_laco (st : estado) : estado :=
  {| arquivo := apos_create (arquivo st);
     eventos := eventos st ++ [Abriu (novo_identificador (eventos st))];
     requisicoes := requisicoes st;
     console :=
       console st
       ++ [ [Lit (nl +:+ "🌤️ SISTEMA DE COLETA DE DADOS METEOROLÓGICOS - RPA")];
            [Lit (repetir "=" 70)];
            [Lit "✓ API Key carregada com sucesso!"];
            linha_banco_criado ];
     tique := tique st |}.

(** ** Concrete payloads, environments and states *)

(** 15.0 as a double: the mantissa 15 at exponent 0, normalized to the 53
    bits of binary64. *)
Definition quinze : spec_float := binary_normalize 53 1024 15 0 false.

Definition objeto_london : list (string * pyval) :=
  [ ("name", PStr "London");
    ("sys", PDict [("country", PStr "GB")]);
    ("main", PDict [("temp", PFloat quinze); ("humidity", PInt 80)]);
    ("weather", PList [PDict [("description", PStr "light rain")]]);
    ("wind", PDict []);
    ("clouds", PDict []);
    ("dt", PInt 1700000000) ].

Definition payload_london : pyval := PDict objeto_london.

(** A payload with a description and without [name]. *)
Definition payload_sem_nome : pyval :=
  PDict [ ("sys", PDict [("country", PStr "GB")]);
          ("main", PDict [("temp", PFloat quinze); ("humidity", PInt 80)]);
          ("weather", PList [PDict [("description", PStr "light rain")]]);
          ("dt", PInt 1700000000) ].


(** A minimal complete payload for a city. *)
Definition payload_de (nome : string) : pyval :=
  PDict [ ("name", PStr nome);
          ("weather", PList [PDict [("description", PStr "nublado")]]) ].

Definition dados_sem_cidade : dados :=
  {| cidade := PNone; pais := PNone; temperatura := PNone;
     sensacao_termica := PNone; temp_minima := PNone; temp_maxima := PNone;
     pressao := PNone; umidade := PNone; descricao := PStr "nublado";
     velocidade_vento := PNone; nuvens := PNone;
     data_hora := PStr "2024-01-01 12:00:00"; timestamp_api := PNone |}.

(** The columns of the program without the [NOT NULL] of [cidade]. *)
Definition esquema_sem_nao_nulo : list coluna :=
  map (fun c => {| col_nome := col_nome c; col_tipo := col_tipo c;
                   col_nao_nulo := false |}) esquema_clima.

(** A concrete environment: every request times out, the clock stands. *)
Definition ambiente_mudo : ambiente :=
  {| rede := fun _ => EsgotouTempo;
     relogio := fun _ => "2024-01-01 12:00:00" |}.

(** An environment that answers every request the same way. *)
Definition ambiente_constante (r : resultado_http) : ambiente :=
  {| rede := fun _ => r; relogio := fun _ => "2024-01-01 12:00:00" |}.

(** London answers 200 with [corpo_london]; any other request times
    out. *)
Definition ambiente_london (corpo_london : pyval) : ambiente :=
  {| rede := fun url =>
       if String.eqb url (montar_url "London" API_KEY) then
         Respondeu (Resposta 200 (Some corpo_london))
       else EsgotouTempo;
     relogio := fun _ => "2024-01-01 12:00:00" |}.

(** London answers 503 with the JSON string "Service Unavailable"; every
    other city would answer 200 with a complete payload. *)
Definition ambiente_london_503 : ambiente :=
  {| rede := fun url =>
       if String.eqb url (montar_url "London" API_KEY) then
         Respondeu (Resposta 503 (Some (PStr "Service Unavailable")))
       else Respondeu (Resposta 200 (Some payload_london));
     relogio := fun _ => "2024-01-01 12:00:00" |}.

(** Every city answers 200 with its own minimal payload. *)
Definition ambiente_eco : ambiente :=
  {| rede := fun url =>
       if String.eqb url (montar_url "London" API_KEY) then
         Respondeu (Resposta 200 (Some (payload_de "London")))
       else if String.eqb url (montar_url "Tokyo" API_KEY) then
         Respondeu (Resposta 200 (Some (payload_de "Tokyo")))
       else if String.eqb url (montar_url "Paris" API_KEY) then
         Respondeu (Resposta 200 (Some (payload_de "Paris")))
       else EsgotouTempo;
     relogio := fun _ => "2024-01-01 12:00:00" |}.

(** The state in which [main] enters its loop on a new file: the table
    was just created and the connection 0 is open. *)
Definition estado_aberto : estado :=
  (criar_banco_dados ambiente_mudo (estado_inicial ∅)).2.

(** The state after London, Tokyo and Paris were fetched and stored, in
    that order. *)
Definition estado_tres_cidades : estado :=
  (para_cada (processar_cidade 0 API_KEY) ["London"; "Tokyo"; "Paris"]
     ambiente_eco estado_aberto).2.

(** ** Further vocabulary *)

(** The record of the London payload, normalized at noon. *)
Definition dados_london : dados := projecao objeto_london "2024-01-01 12:00:00".


(** The line [main] prints for an exception, by the first [except]
    clause that matches it. *)
Definition linha_de_erro (e : excecao) : linha_console :=
  if instancia_ValueError e then
    [Lit (nl +:+ "✗ Erro de configuração: "); FmtExcecao e]
  else if instancia_sqlite3_Error e then
    [Lit (nl +:+ "✗ Erro no banco de dados: "); FmtExcecao e]
  else
    [Lit (nl +:+ "✗ Erro inesperado: "); FmtExcecao e].

Definition linha_final : linha_console := [Lit (nl +:+ repetir "=" 70)].

(** The state with one more handle event. *)
Definition apos_evento (st : estado) (e : evento) : estado :=
  {| arquivo := arquivo st; eventos := eventos st ++ [e];
     requisicoes := requisicoes st; console := console st;
     tique := tique st |}.

(** How [main] ends, given how the loop and the listing ended: closed and
    confirmed, or reported; the separator comes last. *)
Definition desfecho (h : nat) (saida : resultado (list registro) * estado)
  : estado :=
  match saida with
  | (Retorno _, st2) =>
      imprimiu (apos_evento st2 (Fechou h))
        [ [Lit (nl +:+ "✓ Processo concluído com sucesso!")];
          [Lit "✓ Banco de dados: projeto_rpa.db"];
          linha_final ]
  | (Excecao e, st2) => imprimiu st2 [linha_de_erro e; linha_final]
  end.

(** The table of the program is kept: every other table of the file is
    untouched, and [dados_clima], when it was there, still is, with the
    same columns, every row it had under the same key, and a largest key
    that did not go down. *)
Definition conserva_linhas : relation estado := fun st st' =>
  (forall nome, nome <> NOME_TABELA ->
     arquivo st' !! nome = arquivo st !! nome)
  /\ (forall t,
        arquivo st !! NOME_TABELA = Some t ->
        exists t',
          arquivo st' !! NOME_TABELA = Some t'
          /\ tb_colunas t' = tb_colunas t
          /\ (forall id l,
                tb_linhas t !! id = Some l -> tb_linhas t' !! id = Some l)
          /\ maior_id t <= maior_id t').

(** The number of rows went up by at most [n], and not down. *)
Definition cresce (n : nat) : relation estado := fun st st' =>
  (numero_de_linhas st <= numero_de_linhas st' <= numero_de_linhas st + n)%nat.

Definition mesmo_arquivo : relation estado :=
  fun st st' => arquivo st' = arquivo st.

Definition mesmas_requisicoes : relation estado :=
  fun st st' => requisicoes st' = requisicoes st.

(** What a computation can raise. *)
Definition levanta_so (P : excecao -> Prop) {A} (m : M A) : Prop :=
  forall amb st e st', m amb st = (Excecao e, st') -> P e.




(** * Properties *)

(** ** Record normalizer *)

(** Sequencing, one step at a time. *)
Lemma bind_retorno {A B} (m : M A) (f : A -> M B) amb st a st' :
  m amb st = (Retorno a, st') -> (m ≫= f) amb st = f a amb st'.
Proof. intros H. unfold mbind, M_bind. rewrite H. reflexivity. Qed.

Lemma bind_excecao {A B} (m : M A) (f : A -> M B) amb st e st' :
  m amb st = (Excecao e, st') -> (m ≫= f) amb st = (Excecao e, st').
Proof. intros H. unfold mbind, M_bind. rewrite H. reflexivity. Qed.

Lemma get_get_bem_formada d secao chave amb st :
  secao_bem_formada d secao = true ->
  get_get (PDict d) secao chave amb st
  = (Retorno (default PNone (fonte_secao secao chave d)), st).
Proof.
  unfold secao_bem_formada, get_get, fonte_secao, mbind, M_bind, py.
  simpl. destruct (buscar secao d) as [[]|]; simpl; try discriminate;
    reflexivity.
Qed.

Lemma get_get_mal_formada d secao chave amb st :
  secao_bem_formada d secao = false ->
  get_get (PDict d) secao chave amb st = (Excecao AttributeError, st).
Proof.
  unfold secao_bem_formada, get_get, mbind, M_bind, py.
  simpl. destruct (buscar secao d) as [[]|]; simpl; try discriminate;
    reflexivity.
Qed.

Lemma get_0_get_bem_formado d amb st :
  weather_bem_formado d = true ->
  get_0_get (PDict d) "weather" "description" amb st
  = (Retorno (default PNone (fonte_weather d)), st).
Proof.
  unfold weather_bem_formado, get_0_get, fonte_weather, mbind, M_bind, py.
  simpl. destruct (buscar "weather" d) as [[| | | | |[|[] ?]|]|]; simpl;
    try discriminate; reflexivity.
Qed.

Lemma get_0_get_mal_formado d amb st :
  weather_bem_formado d = false ->
  exists e, get_0_get (PDict d) "weather" "description" amb st
            = (Excecao e, st).
Proof.
  unfold weather_bem_formado, get_0_get, mbind, M_bind, py.
  simpl. destruct (buscar "weather" d) as [[| | | | [|]|[|[] ?]|]|]; simpl;
    try discriminate; eauto.
Qed.

(** On a well-shaped object the normalizer is the projection of the
    source paths, read when the clock is. *)
Lemma estruturar_dados_projeta d amb st :
  bem_formado d = true ->
  estruturar_dados (PDict d) amb st
  = (Retorno
       {| cidade := default PNone (buscar "name" d);
          pais := default PNone (fonte_secao "sys" "country" d);
          temperatura := default PNone (fonte_secao "main" "temp" d);
          sensacao_termica :=
            default PNone (fonte_secao "main" "feels_like" d);
          temp_minima := default PNone (fonte_secao "main" "temp_min" d);
          temp_maxima := default PNone (fonte_secao "main" "temp_max" d);
          pressao := default PNone (fonte_secao "main" "pressure" d);
          umidade := default PNone (fonte_secao "main" "humidity" d);
          descricao := default PNone (fonte_weather d);
          velocidade_vento := default PNone (fonte_secao "wind" "speed" d);
          nuvens := default PNone (fonte_secao "clouds" "all" d);
          data_hora := PStr (relogio amb (tique st));
          timestamp_api := default PNone (buscar "dt" d) |},
     apos_relogio st).
Proof.
  unfold bem_formado. rewrite !andb_true_iff.
  intros [[[[Hsys Hmain] Hw] Hwind] Hclouds].
  unfold estruturar_dados.
  erewrite bind_retorno by reflexivity.
  repeat (erewrite bind_retorno by (by apply get_get_bem_formada)).
  erewrite bind_retorno by (by apply get_0_get_bem_formado).
  repeat (erewrite bind_retorno by (by apply get_get_bem_formada)).
  reflexivity.
Qed.

(** Outside those shapes the normalizer raises: the shapes are exactly
    the domain on which it returns. *)
Lemma estruturar_dados_mal_formado d amb st :
  bem_formado d = false ->
  exists e, estruturar_dados (PDict d) amb st = (Excecao e, st).
Proof.
  unfold bem_formado, estruturar_dados. intros Hmal.
  erewrite bind_retorno by reflexivity.
  destruct (secao_bem_formada d "sys") eqn:Hsys;
    [ erewrite bind_retorno by (by apply get_get_bem_formada)
    | exists AttributeError;
      by erewrite bind_excecao by (by apply get_get_mal_formada) ].
  destruct (secao_bem_formada d "main") eqn:Hmain;
    [ repeat (erewrite bind_retorno by (by apply get_get_bem_formada))
    | exists AttributeError;
      by erewrite bind_excecao by (by apply get_get_mal_formada) ].
  destruct (weather_bem_formado d) eqn:Hw;
    [ erewrite bind_retorno by (by apply get_0_get_bem_formado)
    | destruct (get_0_get_mal_formado d amb st Hw) as [e He]; exists e;
      by erewrite bind_excecao by exact He ].
  destruct (secao_bem_formada d "wind") eqn:Hwind;
    [ erewrite bind_retorno by (by apply get_get_bem_formada)
    | exists AttributeError;
      by erewrite bind_excecao by (by apply get_get_mal_formada) ].
  destruct (secao_bem_formada d "clouds") eqn:Hclouds; [ discriminate | ].
  exists AttributeError.
  by erewrite bind_excecao by (by apply get_get_mal_formada).
Qed.

(** C2, as stated, fails: an object whose [weather] is the empty list
    makes [estruturar_dados] raise [IndexError]. *)
Lemma estruturar_dados_weather_vazio :
  estruturar_dados (PDict [("weather", PList [])]) ambiente_mudo
    (estado_inicial ∅)
  = (Excecao IndexError, estado_inicial ∅).
Proof. reflexivity. Qed.

(** A section that is present but is no object ([null] here) raises too. *)
Example estruturar_dados_sys_nulo :
  estruturar_dados (PDict [("sys", PNone)]) ambiente_mudo (estado_inicial ∅)
  = (Excecao AttributeError, estado_inicial ∅).
Proof. reflexivity. Qed.

(** C2, amended: on every JSON object whose present sections [sys],
    [main], [wind], [clouds] are objects and whose [weather], when present,
    is a list starting with an object, [estruturar_dados] returns a
    record, and every field of it other than [cidade] (and the clock
    stamp) is [None] when its source path is absent from the payload.
    This covers the object with none of the expected keys. *)
Theorem estruturar_dados_total_em_bem_formados d amb st :
  bem_formado d = true ->
  exists r,
    estruturar_dados (PDict d) amb st = (Retorno r, apos_relogio st)
    /\ Forall (fun cf : (dados -> pyval) * _ =>
                 cf.2 d = None -> cf.1 r = PNone) fontes.
Proof.
  intros Hbem. eexists. split.
  - by apply estruturar_dados_projeta.
  - unfold fontes.
    repeat (apply Forall_cons; split;
            [ cbn [fst snd pais temperatura sensacao_termica temp_minima
                   temp_maxima pressao umidade descricao velocidade_vento
                   nuvens timestamp_api];
              intros Hfonte; by rewrite Hfonte | ]).
    constructor.
Qed.

Lemma estruturar_dados_total_em_bem_formados_witness :
  bem_formado [] = true
  /\ exists r,
       estruturar_dados (PDict []) ambiente_mudo (estado_inicial ∅)
       = (Retorno r, apos_relogio (estado_inicial ∅))
       /\ Forall (fun cf : (dados -> pyval) * _ =>
                    cf.2 [] = None -> cf.1 r = PNone) fontes.
Proof.
  split; [ reflexivity | ].
  apply (estruturar_dados_total_em_bem_formados [] ambiente_mudo
           (estado_inicial ∅)).
  reflexivity.
Defined.

(** C8: the London payload of the scenario normalizes to city London,
    country GB, temperature 15.0, humidity 80, description light rain,
    provider timestamp 1700000000, and null in every other field read
    from the payload (wind speed and cloud cover among them). *)
Theorem estruturar_dados_london amb st :
  estruturar_dados payload_london amb st
  = (Retorno
       {| cidade := PStr "London";
          pais := PStr "GB";
          temperatura := PFloat quinze;
          sensacao_termica := PNone;
          temp_minima := PNone;
          temp_maxima := PNone;
          pressao := PNone;
          umidade := PInt 80;
          descricao := PStr "light rain";
          velocidade_vento := PNone;
          nuvens := PNone;
          data_hora := PStr (relogio amb (tique st));
          timestamp_api := PInt 1700000000 |},
     apos_relogio st).
Proof. reflexivity. Qed.

(** [quinze] is a finite positive double whose value is 15 * 2^0. *)
Example quinze_valor :
  quinze = S754_finite false (15 * 2 ^ 49) (-49).
Proof. reflexivity. Qed.

(** ** Weather client *)


Lemma obter_dados_clima_sucesso cidade api_key amb st v :
  rede amb (montar_url cidade api_key) = Respondeu (Resposta 200 (Some v)) ->
  obter_dados_clima cidade api_key amb st
  = (Retorno v,
     apos_requisicao st (montar_url cidade api_key)
       [ linha_inicio cidade;
         [Lit "✓ Dados obtidos com sucesso! (Status: "; Fmt (PInt 200);
          Lit ")"] ]).
Proof.
  intros Hrede. unfold obter_dados_clima, tentar, response_json.
  unfold mbind, M_bind, print, requests_get, mret, M_ret, levantar, py.
  rewrite Hrede. unfold apos_requisicao, linha_inicio. simpl.
  by rewrite <- !app_assoc.
Qed.

Lemma obter_dados_clima_falha cidade api_key amb st diag :
  diagnostico (rede amb (montar_url cidade api_key)) = Some diag ->
  obter_dados_clima cidade api_key amb st
  = (Retorno PNone,
     apos_requisicao st (montar_url cidade api_key)
       (linha_inicio cidade :: diag)).
Proof.
  unfold diagnostico, obter_dados_clima, tentar, response_json.
  unfold mbind, M_bind, print, requests_get, mret, M_ret, levantar, py.
  unfold apos_requisicao, linha_inicio.
  destruct (rede amb (montar_url cidade api_key)) as [[sc [b|]]| |];
    cbn [status_code corpo].
  - destruct (sc =? 200); [ discriminate | ].
    destruct b; try discriminate. intros [= <-]. simpl.
    by rewrite <- !app_assoc.
  - destruct (sc =? 200); [ discriminate | ]. intros [= <-]. simpl.
    by rewrite <- !app_assoc.
  - intros [= <-]. simpl. by rewrite <- !app_assoc.
  - intros [= <-]. simpl. by rewrite <- !app_assoc.
Qed.

(** An error status whose body is JSON but no object: the lookup of the
    message raises, and no handler of the client matches. *)
Lemma obter_dados_clima_corpo_nao_objeto cidade api_key amb st sc v :
  rede amb (montar_url cidade api_key) = Respondeu (Resposta sc (Some v)) ->
  sc <> 200 ->
  (forall d, v <> PDict d) ->
  obter_dados_clima cidade api_key amb st
  = (Excecao AttributeError,
     apos_requisicao st (montar_url cidade api_key)
       [ linha_inicio cidade;
         [Lit "✗ Erro na requisição: "; Fmt (PInt sc)] ]).
Proof.
  intros Hrede Hsc Hv. unfold obter_dados_clima, tentar, response_json.
  unfold mbind, M_bind, print, requests_get, mret, M_ret, levantar, py.
  rewrite Hrede. unfold apos_requisicao, linha_inicio.
  cbn [status_code corpo]. apply Z.eqb_neq in Hsc. rewrite Hsc.
  destruct v; simpl; try (by rewrite <- !app_assoc).
  by destruct (Hv d).
Qed.


(** The scenario of the specification: 404 with the body
    [{"message": "city not found"}] for Atlantis. *)
Example obter_dados_clima_atlantis_404 :
  obter_dados_clima "Atlantis" API_KEY
    (ambiente_constante
       (Respondeu
          (Resposta 404 (Some (PDict [("message", PStr "city not found")])))))
    (estado_inicial ∅)
  = (Retorno PNone,
     apos_requisicao (estado_inicial ∅) (montar_url "Atlantis" API_KEY)
       [ linha_inicio "Atlantis";
         [Lit "✗ Erro na requisição: "; Fmt (PInt 404)];
         [Lit "Mensagem: "; Fmt (PStr "city not found")] ]).
Proof. reflexivity. Qed.

(** C6 at its failing input.  A 503 whose body is the JSON string
    "Service Unavailable" is an HTTP outcome other than 200, and the
    client raises [AttributeError] past its boundary instead of returning
    [None]: the lookup of [message] is made on a str, and the handlers of
    the client catch request exceptions only.  The status line is the
    last thing printed. *)
Theorem corpo_nao_objeto_escapa_do_cliente :
  obter_dados_clima "London" API_KEY
    (ambiente_constante
       (Respondeu (Resposta 503 (Some (PStr "Service Unavailable")))))
    (estado_inicial ∅)
  = (Excecao AttributeError,
     apos_requisicao (estado_inicial ∅) (montar_url "London" API_KEY)
       [ linha_inicio "London";
         [Lit "✗ Erro na requisição: "; Fmt (PInt 503)] ])
  /\ instancia_RequestException AttributeError = false.
Proof. split; reflexivity. Qed.

(** A 502 whose body is not JSON is absorbed, by the handler of request
    exceptions: what is printed is the decoding error, no message line. *)
Example obter_dados_clima_corpo_nao_json :
  obter_dados_clima "London" API_KEY
    (ambiente_constante (Respondeu (Resposta 502 None))) (estado_inicial ∅)
  = (Retorno PNone,
     apos_requisicao (estado_inicial ∅) (montar_url "London" API_KEY)
       [ linha_inicio "London";
         [Lit "✗ Erro na requisição: "; Fmt (PInt 502)];
         [Lit "✗ Erro na requisição: ";
          FmtExcecao RequestsJSONDecodeError] ]).
Proof. reflexivity. Qed.

(** ** Store *)

Lemma novo_identificador_maior evs e :
  e ∈ evs -> (identificador e < novo_identificador evs)%nat.
Proof.
  induction evs as [|e' evs IH]; intros Hin; [ by inv Hin | ].
  simpl. inv Hin; [ lia | ]. specialize (IH ltac:(assumption)). lia.
Qed.

Lemma conexao_aberta_nova evs :
  conexao_aberta (novo_identificador evs)
    (evs ++ [Abriu (novo_identificador evs)]) = true.
Proof.
  unfold conexao_aberta. rewrite !existsb_app. simpl.
  rewrite Nat.eqb_refl, orb_true_r, orb_false_r. simpl.
  apply negb_true_iff, not_true_is_false. intros Hex.
  apply existsb_exists in Hex as [e [Hin He]].
  destruct e as [h|h]; simpl in He; [ discriminate | ].
  apply Nat.eqb_eq in He. apply list_elem_of_In in Hin.
  apply novo_identificador_maior in Hin. simpl in Hin. lia.
Qed.

(** Events that follow do not reopen or close a handle they do not name. *)
Lemma conexao_aberta_app conn evs e :
  conexao_aberta conn evs = true ->
  fechou conn e = false ->
  conexao_aberta conn (evs ++ [e]) = true.
Proof.
  unfold conexao_aberta. rewrite !existsb_app, !andb_true_iff. simpl.
  intros [Ha Hf] He. rewrite Ha, He. simpl.
  apply negb_true_iff in Hf. by rewrite Hf.
Qed.

Lemma criar_banco_dados_eq amb st :
  criar_banco_dados amb st
  = (Retorno (novo_identificador (eventos st)),
     {| arquivo := apos_create (arquivo st);
        eventos := eventos st ++ [Abriu (novo_identificador (eventos st))];
        requisicoes := requisicoes st;
        console := console st ++ [linha_banco_criado];
        tique := tique st |}).
Proof.
  unfold criar_banco_dados, sqlite3_connect, execute_create, conn_commit,
    exigir_aberta, ler_tabela, registrar, gravar, print, apos_create.
  unfold mbind, M_bind, mret, M_ret. cbn [eventos arquivo].
  rewrite conexao_aberta_nova. cbn [arquivo].
  destruct (arquivo st !! NOME_TABELA) as [t|] eqn:Ht; cbn [eventos];
    rewrite ?conexao_aberta_nova; rewrite ?Ht; reflexivity.
Qed.

Lemma apos_create_idempotente db : apos_create (apos_create db) = apos_create db.
Proof.
  unfold apos_create at 2 3.
  destruct (db !! NOME_TABELA) as [t|] eqn:Ht.
  - unfold apos_create. by rewrite Ht.
  - unfold apos_create. by rewrite lookup_insert_eq.
Qed.

(** C7: opening is idempotent.  From every state of the file, two calls
    of [criar_banco_dados] in a row both return; the second leaves the
    file exactly as the first left it; after the first the file has the
    table [dados_clima], which is the table that was there before (same
    columns, same rows, same sequence) or, when there was none, an empty
    table with the columns of the program; and every other table of the
    file is as it was. *)
Theorem criar_banco_dados_idempotente amb st :
  exists h1 st1 h2 st2,
    criar_banco_dados amb st = (Retorno h1, st1)
    /\ criar_banco_dados amb st1 = (Retorno h2, st2)
    /\ arquivo st2 = arquivo st1
    /\ (exists t,
          arquivo st1 !! NOME_TABELA = Some t
          /\ match arquivo st !! NOME_TABELA with
             | Some t0 => t = t0
             | None => t = {| tb_colunas := esquema_clima; tb_linhas := ∅;
                              tb_seq := 0 |}
             end)
    /\ (forall nome, nome <> NOME_TABELA ->
          arquivo st1 !! nome = arquivo st !! nome).
Proof.
  do 4 eexists. split; [ apply criar_banco_dados_eq | ].
  split; [ apply criar_banco_dados_eq | ].
  cbn [arquivo]. split; [ apply apos_create_idempotente | ].
  unfold apos_create. split.
  - destruct (arquivo st !! NOME_TABELA) as [t|] eqn:Ht.
    + by exists t.
    + eexists. by rewrite lookup_insert_eq.
  - intros nome Hnome.
    destruct (arquivo st !! NOME_TABELA); [ done | ].
    by rewrite lookup_insert_ne.
Qed.

Lemma foldr_max_inicial a (l : list Z) : a <= foldr Z.max a l.
Proof. induction l as [|x l IH]; simpl; lia. Qed.

Lemma foldr_max_elemento a (l : list Z) x : x ∈ l -> x <= foldr Z.max a l.
Proof.
  induction l as [|y l IH]; intros Hin; [ by inv Hin | ].
  simpl. inv Hin; [ lia | ]. specialize (IH ltac:(assumption)). lia.
Qed.

Lemma maior_id_seq t : tb_seq t <= maior_id t.
Proof. apply foldr_max_inicial. Qed.

Lemma maior_id_linha t id linha :
  tb_linhas t !! id = Some linha -> id <= maior_id t.
Proof.
  intros Hl. apply foldr_max_elemento.
  apply (list_elem_of_fmap_2 fst _ (id, linha)).
  by apply elem_of_map_to_list.
Qed.

Lemma id_novo_livre t : tb_linhas t !! (maior_id t + 1) = None.
Proof.
  destruct (tb_linhas t !! (maior_id t + 1)) as [l|] eqn:Hl; [ | done ].
  apply maior_id_linha in Hl. lia.
Qed.

Lemma vincular_todos_retorno vs xs :
  vincular_todos vs = Retorno xs <->
  Forall2 (fun v x => vincular v = Retorno x) vs xs.
Proof.
  revert xs. induction vs as [|v vs IH]; intros xs; simpl.
  - split; [ intros [= <-]; constructor | intros H; by inv H ].
  - destruct (vincular v) as [x|e] eqn:Hv.
    + destruct (vincular_todos vs) as [xs'|e] eqn:Hvs.
      * split.
        -- intros [= <-]. constructor; [ done | by apply IH ].
        -- intros H. inv H.
           match goal with
           | H1 : vincular v = Retorno _, H2 : Forall2 _ vs _ |- _ =>
               rewrite Hv in H1; injection H1 as <-;
               apply IH in H2; by injection H2 as <-
           end.
      * split; [ discriminate | ].
        intros H. inv H.
        match goal with
        | H2 : Forall2 _ vs _ |- _ => apply IH in H2; discriminate
        end.
    + split; [ discriminate | ].
      intros H. inv H. congruence.
Qed.



Lemma tem_colunas_insert t :
  tb_colunas t = esquema_clima -> forallb (tem_coluna t) colunas_insert = true.
Proof. intros H. unfold tem_coluna. rewrite H. reflexivity. Qed.

Lemma tem_colunas_select t :
  tb_colunas t = esquema_clima -> forallb (tem_coluna t) colunas_select = true.
Proof. intros H. unfold tem_coluna. rewrite H. reflexivity. Qed.

(** The thirteen parameters bind to thirteen cells, the first of which is
    the cell of [cidade]. *)
Lemma vincular_parametros d valores :
  vincular_todos (parametros d) = Retorno valores ->
  exists x resto,
    valores = x :: resto
    /\ vincular (cidade d) = Retorno x
    /\ length resto = 12%nat.
Proof.
  intros H. apply vincular_todos_retorno in H.
  pose proof (Forall2_length _ _ _ H) as Hlen.
  unfold parametros in H.
  apply Forall2_cons_inv_l in H as (x & resto & Hx & _ & ->).
  exists x, resto. simpl in Hlen. split; [ done | ]. split; [ done | lia ].
Qed.

(** The [INSERT] of the program on a table with the columns of the
    program. *)
Lemma sql_insert_clima_eq t d :
  tb_colunas t = esquema_clima ->
  sql_insert colunas_insert (parametros d) t
  = match vincular_todos (parametros d) with
    | Excecao e => Excecao e
    | Retorno valores =>
        if INT64_MAX <? maior_id t + 1 then Excecao SqliteOperationalError
        else if eh_nulo (default SNull (head valores)) then
          Excecao SqliteIntegrityError
        else
          Retorno {| tb_colunas := esquema_clima;
                     tb_linhas :=
                       <[maior_id t + 1 :=
                           list_to_map (zip colunas_insert valores)]>
                         (tb_linhas t);
                     tb_seq := maior_id t + 1 |}
    end.
Proof.
  intros Hcol. unfold sql_insert. rewrite tem_colunas_insert by done.
  cbn [negb]. destruct (vincular_todos (parametros d)) as [valores|e] eqn:Hv;
    [ | done ].
  destruct (INT64_MAX <? maior_id t + 1); [ done | ].
  destruct (vincular_parametros _ _ Hv) as (x & resto & -> & _ & Hlen).
  destruct resto as
    [|x2 [|x3 [|x4 [|x5 [|x6 [|x7 [|x8 [|x9 [|x10 [|x11 [|x12 [|x13 [|? ?]]]]]]]]]]]]];
    try discriminate Hlen.
  assert (Hlinha :
    montar_linha t
      (zip colunas_insert [x; x2; x3; x4; x5; x6; x7; x8; x9; x10; x11; x12; x13])
    = zip colunas_insert [x; x2; x3; x4; x5; x6; x7; x8; x9; x10; x11; x12; x13]).
  { unfold montar_linha. rewrite Hcol. reflexivity. }
  rewrite Hlinha. unfold viola_nao_nulo. rewrite Hcol.
  cbn [head default]. simpl existsb. rewrite !orb_false_r.
  reflexivity.
Qed.

Lemma inserir_dados_banco_eq conn d amb st t :
  conexao_aberta conn (eventos st) = true ->
  arquivo st !! NOME_TABELA = Some t ->
  inserir_dados_banco conn d amb st
  = match sql_insert colunas_insert (parametros d) t with
    | Retorno t' => (Retorno tt, apos_gravar st t' [linha_inserido d])
    | Excecao e => (Excecao e, st)
    end.
Proof.
  intros Hconn Ht.
  unfold inserir_dados_banco, execute_insert, conn_commit, exigir_aberta,
    ler_tabela, gravar, print, py.
  unfold mbind, M_bind, mret, M_ret. rewrite Hconn, Ht.
  fold (parametros d).
  destruct (sql_insert colunas_insert (parametros d) t) as [t'|e];
    [ | done ].
  cbn [eventos]. by rewrite Hconn.
Qed.

Lemma inserir_dados_banco_fechada conn d amb st :
  conexao_aberta conn (eventos st) = false ->
  inserir_dados_banco conn d amb st = (Excecao SqliteProgrammingError, st).
Proof.
  intros Hconn.
  unfold inserir_dados_banco, execute_insert, exigir_aberta.
  unfold mbind, M_bind. by rewrite Hconn.
Qed.

Lemma inserir_dados_banco_sem_tabela conn d amb st :
  conexao_aberta conn (eventos st) = true ->
  arquivo st !! NOME_TABELA = None ->
  inserir_dados_banco conn d amb st = (Excecao SqliteOperationalError, st).
Proof.
  intros Hconn Ht.
  unfold inserir_dados_banco, execute_insert, exigir_aberta, ler_tabela,
    levantar.
  unfold mbind, M_bind. by rewrite Hconn, Ht.
Qed.

Lemma cidade_da_linha x resto :
  (list_to_map (zip colunas_insert (x :: resto)) : gmap string sqlval)
    !! "cidade" = Some x.
Proof. simpl. apply lookup_insert_eq. Qed.

(** An append, whatever its outcome, keeps the invariant. *)
Lemma inserir_dados_banco_invariante conn d amb st :
  invariante_cidade st ->
  invariante_cidade (inserir_dados_banco conn d amb st).2.
Proof.
  intros Hinv.
  destruct (conexao_aberta conn (eventos st)) eqn:Hconn;
    [ | by rewrite inserir_dados_banco_fechada ].
  destruct (arquivo st !! NOME_TABELA) as [t|] eqn:Ht;
    [ | by rewrite inserir_dados_banco_sem_tabela ].
  rewrite (inserir_dados_banco_eq _ _ _ _ t) by done.
  destruct (Hinv t Ht) as [Hcol Hnn].
  rewrite sql_insert_clima_eq by done.
  destruct (vincular_todos (parametros d)) as [valores|e] eqn:Hv; [ | done ].
  destruct (INT64_MAX <? maior_id t + 1); [ done | ].
  destruct (vincular_parametros _ _ Hv) as (x & resto & -> & _ & _).
  cbn [head default from_option id]. destruct (eh_nulo x) eqn:Hx; [ done | ].
  intros t'. cbn [snd arquivo apos_gravar]. rewrite lookup_insert_eq.
  intros [= <-]. split; [ done | ].
  intros id linha. cbn [tb_linhas]. rewrite lookup_insert.
  case_decide as Hid.
  - intros [= <-]. exists x. split; [ apply cidade_da_linha | ].
    by destruct x.
  - apply Hnn.
Qed.




(** With the same columns but no [NOT NULL], the same append stores a
    row whose [cidade] is NULL: the invariant is the schema's doing. *)
Example sem_nao_nulo_grava_cidade_nula :
  match sql_insert colunas_insert (parametros dados_sem_cidade)
          {| tb_colunas := esquema_sem_nao_nulo; tb_linhas := ∅;
             tb_seq := 0 |} with
  | Retorno t' => map (fun r => (r.1, celula "cidade" r.2))
                      (map_to_list (tb_linhas t'))
  | Excecao _ => []
  end = [(1, PNone)].
Proof. reflexivity. Qed.

Example insercao_de_cidade_nula_e_recusada :
  inserir_dados_banco 0 dados_sem_cidade ambiente_mudo estado_aberto
  = (Excecao SqliteIntegrityError, estado_aberto).
Proof. reflexivity. Qed.

(** ** Display *)

Lemma print_eq l amb st : print l amb st = (Retorno tt, imprimiu st [l]).
Proof. reflexivity. Qed.

Lemma imprimiu_imprimiu st l1 l2 :
  imprimiu (imprimiu st l1) l2 = imprimiu st (l1 ++ l2).
Proof. unfold imprimiu. simpl. by rewrite <- app_assoc. Qed.



(** ** Orchestrator *)





(** Two more ways a returned payload writes no row: the empty object is
    falsy and is skipped; a payload without description stops the display
    with [AttributeError]. *)
Example sucesso_com_objeto_vazio_nao_grava :
  let amb := ambiente_london (PDict []) in
  processar_cidade 0 API_KEY "London" amb estado_aberto
  = (Retorno tt,
     imprimiu
       (apos_requisicao
          (imprimiu estado_aberto
             [[Lit (nl +:+ "--- Processando: "); Lit "London"; Lit " ---"]])
          (montar_url "London" API_KEY)
          [ linha_inicio "London";
            [Lit "✓ Dados obtidos com sucesso! (Status: "; Fmt (PInt 200);
             Lit ")"] ])
       [[]]).
Proof. reflexivity. Qed.

Example sucesso_sem_descricao_nao_grava :
  let amb := ambiente_london (PDict [("name", PStr "London")]) in
  (processar_cidade 0 API_KEY "London" amb estado_aberto).1
  = Excecao AttributeError
  /\ numero_de_linhas
       (processar_cidade 0 API_KEY "London" amb estado_aberto).2
     = numero_de_linhas estado_aberto.
Proof. split; reflexivity. Qed.



(** The loop body on a failure the client absorbs: nothing is raised and
    only the console and the request log grow. *)
Lemma processar_cidade_falha conn api_key c amb st diag :
  diagnostico (rede amb (montar_url c api_key)) = Some diag ->
  processar_cidade conn api_key c amb st
  = (Retorno tt, apos_falha st (montar_url c api_key) c diag).
Proof.
  intros Hdiag. unfold processar_cidade.
  erewrite bind_retorno by apply print_eq.
  erewrite bind_retorno by (by apply obter_dados_clima_falha).
  reflexivity.
Qed.

(** X16: absorbed failures do not stop the loop: it requests every city of
    the list, in order, and writes nothing. *)
Lemma falhas_absorvidas_nao_interrompem conn api_key cs amb st :
  (forall c, c ∈ cs ->
     is_Some (diagnostico (rede amb (montar_url c api_key)))) ->
  exists st',
    para_cada (processar_cidade conn api_key) cs amb st = (Retorno tt, st')
    /\ arquivo st' = arquivo st
    /\ eventos st' = eventos st
    /\ requisicoes st'
       = requisicoes st ++ map (fun c => montar_url c api_key) cs.
Proof.
  revert st. induction cs as [|c cs IH]; intros st Hcs.
  - exists st. simpl. by rewrite app_nil_r.
  - destruct (Hcs c) as [diag Hdiag]; [ by left | ].
    destruct (IH (apos_falha st (montar_url c api_key) c diag))
      as (st' & Hst' & Harq & Hev & Hreq).
    { intros c' Hc'. apply Hcs. by right. }
    exists st'. cbn [para_cada].
    erewrite bind_retorno by (by apply processar_cidade_falha).
    split; [ exact Hst' | ].
    split; [ by rewrite Harq | ]. split; [ by rewrite Hev | ].
    rewrite Hreq. cbn [requisicoes apos_falha imprimiu apos_requisicao map].
    by rewrite <- app_assoc.
Qed.

(** C3 at its failing input.  London answers 503 with a JSON string as
    body (every other city would succeed): the client raises
    [AttributeError], the loop body lets it through, and the run stops
    there: London is the only city requested, and the table stays empty. *)
Theorem falha_com_corpo_nao_objeto_interrompe :
  (processar_cidade 0 API_KEY "London" ambiente_london_503 estado_aberto).1
  = Excecao AttributeError
  /\ requisicoes (main ambiente_london_503 (estado_inicial ∅)).2
     = [montar_url "London" API_KEY]
  /\ numero_de_linhas (main ambiente_london_503 (estado_inicial ∅)).2 = O
  /\ take 2 (reverse (console (main ambiente_london_503
                                   (estado_inicial ∅)).2))
     = [ [Lit (nl +:+ repetir "=" 70)];
         [Lit (nl +:+ "✗ Erro inesperado: "); FmtExcecao AttributeError] ].
Proof. repeat split; reflexivity. Qed.

(** C4 at its failing input.  London answers 200 with a payload without
    [name]: the append raises [sqlite3.IntegrityError], [main] reports a
    database error, and the connection it opened is never closed.  On the
    run in which every request times out, [main] completes and closes the
    connection once. *)
Theorem conexao_nao_fechada_em_erro :
  eventos (main (ambiente_london payload_sem_nome) (estado_inicial ∅)).2
  = [Abriu 0%nat]
  /\ conexao_aberta 0
       (eventos (main (ambiente_london payload_sem_nome)
                   (estado_inicial ∅)).2) = true
  /\ take 2 (reverse (console (main (ambiente_london payload_sem_nome)
                                   (estado_inicial ∅)).2))
     = [ [Lit (nl +:+ repetir "=" 70)];
         [Lit (nl +:+ "✗ Erro no banco de dados: ");
          FmtExcecao SqliteIntegrityError] ]
  /\ eventos (main ambiente_mudo (estado_inicial ∅)).2
     = [Abriu 0%nat; Fechou 0%nat].
Proof. repeat split; reflexivity. Qed.

(** ** Recent records *)

#[local] Instance id_decrescente_trans : Transitive id_decrescente.
Proof. unfold id_decrescente. intros a b c. lia. Qed.

#[local] Instance id_decrescente_total : Total id_decrescente.
Proof. unfold id_decrescente. intros a b. lia. Qed.

Lemma ordenadas_perm t : ordenadas t ≡ₚ map_to_list (tb_linhas t).
Proof. apply merge_sort_Permutation. Qed.

Lemma elem_of_ordenadas t id linha :
  (id, linha) ∈ ordenadas t <-> tb_linhas t !! id = Some linha.
Proof. rewrite ordenadas_perm. apply elem_of_map_to_list. Qed.

Lemma length_ordenadas t : length (ordenadas t) = size (tb_linhas t).
Proof. rewrite ordenadas_perm. apply length_map_to_list. Qed.

Lemma ordenadas_decrescente t : StronglySorted id_decrescente (ordenadas t).
Proof. apply StronglySorted_merge_sort; apply _. Qed.

Lemma decrescente_sem_repeticao (l : list (Z * gmap string sqlval)) :
  StronglySorted id_decrescente l -> NoDup (l.*1) ->
  StronglySorted id_maior l.
Proof.
  induction 1 as [|a l Hl IH Ha]; intros Hnd; [ constructor | ].
  rewrite fmap_cons in Hnd. apply NoDup_cons in Hnd as [Hnotin Hnd].
  constructor; [ by apply IH | ].
  rewrite Forall_forall in Ha |- *. intros b Hb.
  specialize (Ha b Hb). unfold id_decrescente in Ha. unfold id_maior.
  assert (b.1 <> a.1); [ | lia ].
  intros Heq. apply Hnotin. rewrite <- Heq.
  by apply list_elem_of_fmap_2.
Qed.

Lemma ordenadas_estrita t : StronglySorted id_maior (ordenadas t).
Proof.
  apply decrescente_sem_repeticao; [ apply ordenadas_decrescente | ].
  rewrite ordenadas_perm. apply NoDup_fst_map_to_list.
Qed.


Lemma imprimiu_nada st : imprimiu st [] = st.
Proof. unfold imprimiu. rewrite app_nil_r. by destruct st. Qed.

Lemma imprimir_registro_eq reg amb st :
  imprimir_registro reg amb st
  = (Retorno tt, imprimiu st [linha_registro reg]).
Proof. by destruct reg as [[[c t] d] h]. Qed.

Lemma para_cada_imprimir_registro regs amb st :
  para_cada imprimir_registro regs amb st
  = (Retorno tt, imprimiu st (map linha_registro regs)).
Proof.
  revert st. induction regs as [|reg regs IH]; intros st.
  - cbn [para_cada map]. by rewrite imprimiu_nada.
  - cbn [para_cada map].
    erewrite bind_retorno by apply imprimir_registro_eq.
    cbn beta. rewrite IH, imprimiu_imprimiu. reflexivity.
Qed.

Lemma execute_select_eq conn limite amb st t :
  conexao_aberta conn (eventos st) = true ->
  arquivo st !! NOME_TABELA = Some t ->
  execute_select conn limite amb st = (sql_select limite t, st).
Proof.
  intros Hconn Ht. unfold execute_select, exigir_aberta, ler_tabela, py.
  unfold mbind, M_bind. by rewrite Hconn, Ht.
Qed.

(** Printing the rows fetched never fails and touches the console only. *)
Lemma consultar_dados_banco_eq conn limite amb st t regs :
  conexao_aberta conn (eventos st) = true ->
  arquivo st !! NOME_TABELA = Some t ->
  sql_select limite t = Retorno regs ->
  exists linhas,
    consultar_dados_banco conn limite amb st
    = (Retorno regs, imprimiu st linhas).
Proof.
  intros Hconn Ht Hsel. unfold consultar_dados_banco.
  erewrite bind_retorno
    by (erewrite execute_select_eq by done; by rewrite Hsel).
  destruct regs as [|reg regs].
  - exists []. rewrite imprimiu_nada. reflexivity.
  - eexists. erewrite bind_retorno; [ reflexivity | ].
    erewrite bind_retorno by apply print_eq.
    erewrite bind_retorno by apply print_eq.
    erewrite bind_retorno by apply para_cada_imprimir_registro.
    rewrite print_eq, !imprimiu_imprimiu. reflexivity.
Qed.

Lemma sql_select_clima limite t :
  tb_colunas t = esquema_clima ->
  INT64_MIN <= limite <= INT64_MAX ->
  sql_select limite t
  = Retorno (map (fun r => projetar r.2) (limitar limite (ordenadas t))).
Proof.
  intros Hcol Hfaixa. unfold sql_select.
  rewrite tem_colunas_select by done. cbn [negb vincular].
  replace ((INT64_MIN <=? limite) && (limite <=? INT64_MAX)) with true;
    [ done | ].
  symmetry. apply andb_true_iff. split; apply Z.leb_le; lia.
Qed.

(** C5, as stated, fails: with the limit 2^63, a non-negative integer,
    the query raises [OverflowError] when the limit is bound. *)
Lemma consultar_com_limite_enorme :
  0 <= INT64_MAX + 1
  /\ (consultar_dados_banco 0 (INT64_MAX + 1) ambiente_mudo estado_aberto).1
     = Excecao OverflowError.
Proof. split; [ done | reflexivity ]. Qed.

(** C5, amended: for every state of the table of the program and every
    limit N with 0 <= N <= 2^63 - 1, the query returns, without error
    and without touching the file, the projection of a list [sel] of
    stored rows that is strictly decreasing in [id], has min(N, number of
    rows) elements, and leaves out only rows older than every row it
    keeps.  So it has at most N rows, has every row when N is at least
    the number of rows, and is empty on an empty table. *)
Theorem consultar_dados_banco_recentes conn limite amb st t :
  conexao_aberta conn (eventos st) = true ->
  arquivo st !! NOME_TABELA = Some t ->
  tb_colunas t = esquema_clima ->
  0 <= limite <= INT64_MAX ->
  exists sel st',
    consultar_dados_banco conn limite amb st
    = (Retorno (map (fun r => projetar r.2) sel), st')
    /\ arquivo st' = arquivo st
    /\ length sel = Nat.min (Z.to_nat limite) (size (tb_linhas t))
    /\ StronglySorted id_maior sel
    /\ (forall r, r ∈ sel -> tb_linhas t !! r.1 = Some r.2)
    /\ (forall id linha,
          tb_linhas t !! id = Some linha -> (id, linha) ∉ sel ->
          forall r, r ∈ sel -> id < r.1)
    /\ (size (tb_linhas t) <= Z.to_nat limite ->
        forall id linha,
          tb_linhas t !! id = Some linha -> (id, linha) ∈ sel)%nat
    /\ (tb_linhas t = ∅ -> sel = []).
Proof.
  intros Hconn Ht Hcol [Hnn Hmax].
  assert (Hsel : sql_select limite t
                 = Retorno (map (fun r => projetar r.2)
                              (take (Z.to_nat limite) (ordenadas t)))).
  { rewrite sql_select_clima by (unfold INT64_MIN; done || lia).
    unfold limitar. by replace (limite <? 0) with false
      by (symmetry; apply Z.ltb_ge; lia). }
  destruct (consultar_dados_banco_eq conn limite amb st t _ Hconn Ht Hsel)
    as [linhas Hcons].
  exists (take (Z.to_nat limite) (ordenadas t)), (imprimiu st linhas).
  pose proof (ordenadas_estrita t) as Hord.
  rewrite <- (take_drop (Z.to_nat limite) (ordenadas t)) in Hord.
  split; [ exact Hcons | ]. split; [ reflexivity | ].
  split; [ by rewrite length_take, length_ordenadas | ].
  split; [ by apply StronglySorted_app_1_l in Hord | ].
  split.
  { intros [id linha] Hin. apply elem_of_ordenadas.
    rewrite <- (take_drop (Z.to_nat limite) (ordenadas t)).
    apply elem_of_app. by left. }
  split.
  { intros id linha Hl Hfora r Hr.
    apply elem_of_ordenadas in Hl.
    rewrite <- (take_drop (Z.to_nat limite) (ordenadas t)) in Hl.
    apply elem_of_app in Hl as [Hl | Hl]; [ done | ].
    exact (StronglySorted_app_1_elem_of _ _ _ _ _ Hord Hr Hl). }
  split.
  { intros Hn id linha Hl. rewrite take_ge by (rewrite length_ordenadas; lia).
    by apply elem_of_ordenadas. }
  intros Hvazia. apply length_zero_iff_nil.
  rewrite length_take, length_ordenadas, Hvazia, map_size_empty. lia.
Qed.

Lemma consultar_dados_banco_recentes_witness :
  conexao_aberta 0 (eventos estado_tres_cidades) = true
  /\ arquivo estado_tres_cidades !! NOME_TABELA
     = Some (tabela_de estado_tres_cidades)
  /\ tb_colunas (tabela_de estado_tres_cidades) = esquema_clima
  /\ 0 <= 2 <= INT64_MAX
  /\ exists sel st',
       consultar_dados_banco 0 2 ambiente_mudo estado_tres_cidades
       = (Retorno (map (fun r => projetar r.2) sel), st')
       /\ arquivo st' = arquivo estado_tres_cidades
       /\ length sel
          = Nat.min (Z.to_nat 2)
              (size (tb_linhas (tabela_de estado_tres_cidades)))
       /\ StronglySorted id_maior sel
       /\ (forall r, r ∈ sel ->
             tb_linhas (tabela_de estado_tres_cidades) !! r.1 = Some r.2)
       /\ (forall id linha,
             tb_linhas (tabela_de estado_tres_cidades) !! id = Some linha ->
             (id, linha) ∉ sel -> forall r, r ∈ sel -> id < r.1)
       /\ (size (tb_linhas (tabela_de estado_tres_cidades)) <= Z.to_nat 2 ->
           forall id linha,
             tb_linhas (tabela_de estado_tres_cidades) !! id = Some linha ->
             (id, linha) ∈ sel)%nat
       /\ (tb_linhas (tabela_de estado_tres_cidades) = ∅ -> sel = []).
Proof.
  assert (H1 : conexao_aberta 0 (eventos estado_tres_cidades) = true)
    by (vm_compute; reflexivity).
  assert (H2 : arquivo estado_tres_cidades !! NOME_TABELA
               = Some (tabela_de estado_tres_cidades))
    by (vm_compute; reflexivity).
  assert (H3 : tb_colunas (tabela_de estado_tres_cidades) = esquema_clima)
    by (vm_compute; reflexivity).
  assert (H4 : 0 <= 2 <= INT64_MAX) by (unfold INT64_MAX; lia).
  split; [ exact H1 | ]. split; [ exact H2 | ]. split; [ exact H3 | ].
  split; [ exact H4 | ].
  exact (consultar_dados_banco_recentes 0 2 ambiente_mudo
           estado_tres_cidades (tabela_de estado_tres_cidades) H1 H2 H3 H4).
Defined.

(** The scenario of the specification: London, Tokyo and Paris stored in
    that order, then the two most recent rows: Paris, then Tokyo. *)
Example recentes_apos_tres_cidades :
  (consultar_dados_banco 0 2 ambiente_mudo estado_tres_cidades).1
  = Retorno
      [ (PStr "Paris", PNone, PStr "nublado", PStr "2024-01-01 12:00:00");
        (PStr "Tokyo", PNone, PStr "nublado", PStr "2024-01-01 12:00:00") ].
Proof. vm_compute. reflexivity. Qed.

(** A limit above the number of rows returns them all; an empty table
    returns nothing and prints nothing. *)
Example recentes_com_limite_folgado :
  (consultar_dados_banco 0 10 ambiente_mudo estado_tres_cidades).1
  = Retorno
      [ (PStr "Paris", PNone, PStr "nublado", PStr "2024-01-01 12:00:00");
        (PStr "Tokyo", PNone, PStr "nublado", PStr "2024-01-01 12:00:00");
        (PStr "London", PNone, PStr "nublado", PStr "2024-01-01 12:00:00") ].
Proof. vm_compute. reflexivity. Qed.

Example recentes_de_tabela_vazia :
  consultar_dados_banco 0 10 ambiente_mudo estado_aberto
  = (Retorno [], estado_aberto).
Proof. vm_compute. reflexivity. Qed.

(** ** Frame properties of a whole run *)

Section Quadro.
Context (R : relation estado) `{!Reflexive R} `{!Transitive R}.

(** The operations that change the state and are not specific to the
    store. *)
Hypothesis R_print : forall l, respeita R (print l).
Hypothesis R_datetime_now : respeita R datetime_now.
Hypothesis R_requests_get : forall url, respeita R (requests_get url).

Lemma respeita_inalterado {A} (m : M A) :
  (forall amb st, (m amb st).2 = st) -> respeita R m.
Proof. intros Hm amb st. by rewrite Hm. Qed.

Lemma respeita_mret {A} (a : A) : respeita R (mret a).
Proof. by apply respeita_inalterado. Qed.

Lemma respeita_levantar {A} e : respeita R (@levantar A e).
Proof. by apply respeita_inalterado. Qed.

Lemma respeita_py {A} (r : resultado A) : respeita R (py r).
Proof. by apply respeita_inalterado. Qed.

Lemma respeita_exigir_aberta conn : respeita R (exigir_aberta conn).
Proof.
  apply respeita_inalterado. intros amb st. unfold exigir_aberta.
  by destruct (conexao_aberta conn (eventos st)).
Qed.

Lemma respeita_ler_tabela : respeita R ler_tabela.
Proof. by apply respeita_inalterado. Qed.

Lemma respeita_bind {A B} (m : M A) (f : A -> M B) :
  respeita R m -> (forall a, respeita R (f a)) -> respeita R (m ≫= f).
Proof.
  intros Hm Hf amb st. unfold mbind, M_bind.
  specialize (Hm amb st).
  destruct (m amb st) as [[a|e] st'] eqn:Hmst; [ | done ].
  etransitivity; [ exact Hm | apply Hf ].
Qed.

Lemma respeita_tentar {A} (m : M A) trata :
  respeita R m ->
  (forall e h, trata e = Some h -> respeita R h) ->
  respeita R (tentar m trata).
Proof.
  intros Hm Ht amb st. unfold tentar.
  specialize (Hm amb st).
  destruct (m amb st) as [[a|e] st']; [ done | ].
  destruct (trata e) as [h|] eqn:He; [ | done ].
  etransitivity; [ exact Hm | by apply (Ht e h) ].
Qed.

Lemma respeita_finalmente {A} (m : M A) f :
  respeita R m -> respeita R f -> respeita R (finalmente m f).
Proof.
  intros Hm Hf amb st. unfold finalmente.
  specialize (Hm amb st).
  destruct (m amb st) as [r st']. specialize (Hf amb st').
  destruct (f amb st') as [[|] st'']; by etransitivity.
Qed.

Lemma respeita_para_cada {A} (f : A -> M unit) l :
  (forall x, respeita R (f x)) -> respeita R (para_cada f l).
Proof.
  intros Hf. induction l as [|x l IH]; cbn [para_cada].
  - apply respeita_mret.
  - apply respeita_bind; [ apply Hf | intros _; apply IH ].
Qed.

(** Goals of the form [respeita R m], by the structure of [m]. *)
Ltac quadro :=
  repeat match goal with
    | |- respeita _ (mbind _ _) => apply respeita_bind; [ | intros ? ]
    | |- respeita _ (mret _) => apply respeita_mret
    | |- respeita _ (levantar _) => apply respeita_levantar
    | |- respeita _ (py _) => apply respeita_py
    | |- respeita _ (exigir_aberta _) => apply respeita_exigir_aberta
    | |- respeita _ ler_tabela => apply respeita_ler_tabela
    | |- respeita _ (print _) => apply R_print
    | |- respeita _ datetime_now => apply R_datetime_now
    | |- respeita _ (requests_get _) => apply R_requests_get
    | |- respeita _ (para_cada _ _) => apply respeita_para_cada; intros ?
    | |- respeita _ (if ?b then _ else _) => destruct b
    | |- respeita _ (match ?x with _ => _ end) => destruct x
    end.

Lemma respeita_estruturar_dados v : respeita R (estruturar_dados v).
Proof. unfold estruturar_dados, get_get, get_0_get. quadro. Qed.

Lemma respeita_exibir_dados_formatados d :
  respeita R (exibir_dados_formatados d).
Proof. unfold exibir_dados_formatados. quadro. Qed.

Lemma respeita_obter_dados_clima c k : respeita R (obter_dados_clima c k).
Proof.
  unfold obter_dados_clima, response_json.
  apply respeita_tentar; [ quadro | ].
  intros e h. destruct e; cbn [instancia_RequestException];
    intros [= <-]; quadro.
Qed.

Lemma respeita_consultar_dados_banco conn n :
  respeita R (consultar_dados_banco conn n).
Proof.
  unfold consultar_dados_banco, execute_select.
  apply respeita_bind; [ quadro | intros regs ].
  apply respeita_bind; [ | intros _; apply respeita_mret ].
  destruct regs; [ apply respeita_mret | ].
  apply respeita_bind; [ apply R_print | intros _ ].
  apply respeita_bind; [ apply R_print | intros _ ].
  apply respeita_bind; [ | intros _; apply R_print ].
  apply respeita_para_cada. intros [[[? ?] ?] ?]. apply R_print.
Qed.

Lemma respeita_carregar_configuracoes : respeita R carregar_configuracoes.
Proof. unfold carregar_configuracoes. quadro. Qed.

(** What is left is the store: given that appends respect [R], so does
    the loop, and then the listing. *)
Hypothesis R_inserir :
  forall conn d, respeita R (inserir_dados_banco conn d).

Lemma respeita_processar_cidade conn k c :
  respeita R (processar_cidade conn k c).
Proof.
  unfold processar_cidade.
  apply respeita_bind; [ apply R_print | intros _ ].
  apply respeita_bind; [ apply respeita_obter_dados_clima | intros v ].
  apply respeita_bind; [ | intros _; apply R_print ].
  destruct (verdadeiro v); [ | apply respeita_mret ].
  apply respeita_bind; [ apply respeita_estruturar_dados | intros d ].
  apply respeita_bind;
    [ apply respeita_exibir_dados_formatados | intros _ ].
  apply R_inserir.
Qed.

Lemma respeita_coletar_e_consultar conn k :
  respeita R (coletar_e_consultar conn k).
Proof.
  unfold coletar_e_consultar.
  apply respeita_bind; [ | intros _; apply respeita_consultar_dados_banco ].
  apply respeita_para_cada. intros c. apply respeita_processar_cidade.
Qed.
End Quadro.

(** *** The invariant of the table *)

#[local] Instance mantem_invariante_refl : Reflexive mantem_invariante.
Proof. intros st Hinv. exact Hinv. Qed.

#[local] Instance mantem_invariante_trans : Transitive mantem_invariante.
Proof. intros st1 st2 st3 H12 H23 H1. by apply H23, H12. Qed.

Lemma mantem_invariante_mesmo_arquivo {A} (m : M A) :
  (forall amb st, arquivo (m amb st).2 = arquivo st) ->
  respeita mantem_invariante m.
Proof. intros Hq amb st Hinv t. rewrite Hq. apply Hinv. Qed.

Lemma mantem_invariante_print l : respeita mantem_invariante (print l).
Proof. by apply mantem_invariante_mesmo_arquivo. Qed.

Lemma mantem_invariante_datetime_now : respeita mantem_invariante datetime_now.
Proof. by apply mantem_invariante_mesmo_arquivo. Qed.

Lemma mantem_invariante_requests_get url :
  respeita mantem_invariante (requests_get url).
Proof.
  apply mantem_invariante_mesmo_arquivo. intros amb st.
  unfold requests_get. by destruct (rede amb url).
Qed.

Lemma mantem_invariante_registrar e : respeita mantem_invariante (registrar e).
Proof. by apply mantem_invariante_mesmo_arquivo. Qed.

Lemma mantem_invariante_inserir conn d :
  respeita mantem_invariante (inserir_dados_banco conn d).
Proof. intros amb st Hinv. by apply inserir_dados_banco_invariante. Qed.

Lemma mantem_invariante_criar : respeita mantem_invariante criar_banco_dados.
Proof.
  intros amb st Hinv. rewrite criar_banco_dados_eq. cbn [snd].
  intros t. cbn [arquivo]. unfold apos_create.
  destruct (arquivo st !! NOME_TABELA) as [t0|] eqn:Ht0.
  - rewrite Ht0. intros [= <-]. by apply Hinv.
  - rewrite lookup_insert_eq. intros [= <-]. split; [ done | ].
    intros id linha Hl. cbn [tb_linhas] in Hl. by rewrite lookup_empty in Hl.
Qed.

(** Every row [main] leaves in the table has a non-null [cidade], given
    that the rows it found had one (none, on a new file). *)
Lemma main_preserva_invariante : respeita mantem_invariante main.
Proof.
  pose proof mantem_invariante_print as Hp.
  pose proof mantem_invariante_datetime_now as Hd.
  pose proof mantem_invariante_requests_get as Hr.
  pose proof mantem_invariante_inserir as Hi.
  unfold main.
  repeat match goal with
    | |- forall _ : _, respeita _ _ => intros ?
    | |- respeita _ (mbind _ _) => apply respeita_bind; [ apply _ | | ]
    | |- respeita _ (print _) => apply Hp
    | |- respeita _ (finalmente _ _) =>
        apply respeita_finalmente; [ apply _ | | ]
    | |- respeita _ (tentar _ _) =>
        apply respeita_tentar; [ apply _ | | intros e h Htrata ]
    | |- respeita _ carregar_configuracoes =>
        apply respeita_carregar_configuracoes; solve [ apply _ | assumption ]
    | |- respeita _ criar_banco_dados => apply mantem_invariante_criar
    | |- respeita _ (para_cada _ _) =>
        apply respeita_para_cada; [ apply _ | apply _ | ]
    | |- respeita _ (processar_cidade _ _ _) =>
        apply respeita_processar_cidade; solve [ apply _ | assumption ]
    | |- respeita _ (consultar_dados_banco _ _) =>
        apply respeita_consultar_dados_banco; solve [ apply _ | assumption ]
    | |- respeita _ (conn_close _) => apply mantem_invariante_registrar
    end.
  destruct (instancia_ValueError e);
    [ injection Htrata as <-; apply Hp | ].
  destruct (instancia_sqlite3_Error e); injection Htrata as <-; apply Hp.
Qed.

Lemma invariante_em_arquivo_novo : invariante_cidade (estado_inicial ∅).
Proof.
  intros t Ht. cbn [arquivo estado_inicial] in Ht.
  by rewrite lookup_empty in Ht.
Qed.

Lemma main_em_arquivo_novo amb :
  invariante_cidade (main amb (estado_inicial ∅)).2.
Proof. apply main_preserva_invariante, invariante_em_arquivo_novo. Qed.

(** *** The handle events *)

#[local] Instance mesmos_eventos_refl : Reflexive mesmos_eventos.
Proof. by intros st. Qed.

#[local] Instance mesmos_eventos_trans : Transitive mesmos_eventos.
Proof. unfold mesmos_eventos. intros st1 st2 st3 H12 H23. congruence. Qed.

Lemma mesmos_eventos_print l : respeita mesmos_eventos (print l).
Proof. by intros amb st. Qed.

Lemma mesmos_eventos_datetime_now : respeita mesmos_eventos datetime_now.
Proof. by intros amb st. Qed.

Lemma mesmos_eventos_requests_get url :
  respeita mesmos_eventos (requests_get url).
Proof.
  intros amb st. unfold mesmos_eventos, requests_get.
  by destruct (rede amb url).
Qed.

Lemma mesmos_eventos_gravar t : respeita mesmos_eventos (gravar t).
Proof. by intros amb st. Qed.

Lemma mesmos_eventos_inserir conn d :
  respeita mesmos_eventos (inserir_dados_banco conn d).
Proof.
  unfold inserir_dados_banco, execute_insert, conn_commit.
  repeat match goal with
    | |- forall _ : _, respeita _ _ => intros ?
    | |- respeita _ (mbind _ _) => apply respeita_bind; [ apply _ | | ]
    | |- respeita _ (print _) => apply mesmos_eventos_print
    | |- respeita _ (gravar _) => apply mesmos_eventos_gravar
    | |- respeita _ (exigir_aberta _) =>
        apply respeita_exigir_aberta; apply _
    | |- respeita _ ler_tabela => apply respeita_ler_tabela; apply _
    | |- respeita _ (py _) => apply respeita_py; apply _
    | |- respeita _ (levantar _) => apply respeita_levantar; apply _
    | |- respeita _ (match ?x with _ => _ end) => destruct x
    end.
Qed.

(** Between opening and closing, [main] leaves the handle events alone. *)
Lemma mesmos_eventos_coletar_e_consultar conn k :
  respeita mesmos_eventos (coletar_e_consultar conn k).
Proof.
  apply respeita_coletar_e_consultar;
    auto using mesmos_eventos_print, mesmos_eventos_datetime_now,
      mesmos_eventos_requests_get, mesmos_eventos_inserir;
    apply _.
Qed.

Lemma carregar_configuracoes_eq amb st :
  carregar_configuracoes amb st
  = (Retorno API_KEY, imprimiu st [[Lit "✓ API Key carregada com sucesso!"]]).
Proof. reflexivity. Qed.

(** X20: [main] closes the connection it opened exactly when the loop and
    the listing complete; when either raises, no close follows the
    open. *)
Lemma main_fecha_somente_ao_concluir amb st :
  let h := novo_identificador (eventos st) in
  eventos (main amb st).2
  = eventos st
    ++ Abriu h
       :: match (coletar_e_consultar h API_KEY amb (estado_no_laco st)).1 with
          | Retorno _ => [Fechou h]
          | Excecao _ => []
          end.
Proof.
  cbv zeta. unfold main.
  erewrite bind_retorno by apply print_eq.
  erewrite bind_retorno by apply print_eq.
  unfold finalmente, tentar.
  erewrite bind_retorno by apply carregar_configuracoes_eq.
  erewrite bind_retorno by apply criar_banco_dados_eq.
  repeat match goal with
    | |- context [ eventos (imprimiu ?s ?l) ] =>
        change (eventos (imprimiu s l)) with (eventos s)
    end.
  match goal with
  | |- context [ mbind _ _ amb ?s ] =>
      replace s with (estado_no_laco st)
        by (unfold estado_no_laco, imprimiu;
            cbn [arquivo eventos requisicoes console tique];
            by rewrite <- !app_assoc)
  end.
  set (h := novo_identificador (eventos st)).
  pose proof (mesmos_eventos_coletar_e_consultar h API_KEY amb
                (estado_no_laco st)) as Hev.
  unfold mesmos_eventos in Hev. unfold coletar_e_consultar in Hev |- *.
  destruct (para_cada (processar_cidade h API_KEY) cidades amb
              (estado_no_laco st)) as [[[]|e] st2] eqn:Hlaco.
  - rewrite (bind_retorno _ _ _ _ _ _ Hlaco) in Hev.
    do 2 rewrite (bind_retorno _ _ _ _ _ _ Hlaco). cbn beta in Hev |- *.
    destruct (consultar_dados_banco h 10 amb st2) as [[regs|e] st3] eqn:Hc;
      cbn [fst snd] in Hev |- *.
    + rewrite (bind_retorno _ _ _ _ _ _ Hc).
      unfold conn_close, registrar, print, mbind, M_bind.
      cbn [fst snd eventos]. rewrite Hev.
      cbn [eventos estado_no_laco]. by rewrite <- app_assoc.
    + rewrite (bind_excecao _ _ _ _ _ _ Hc).
      destruct (instancia_ValueError e);
        [ | destruct (instancia_sqlite3_Error e) ];
        cbn [fst snd eventos print]; rewrite Hev; reflexivity.
  - rewrite (bind_excecao _ _ _ _ _ _ Hlaco) in Hev.
    do 2 rewrite (bind_excecao _ _ _ _ _ _ Hlaco).
    cbn [fst snd] in Hev |- *.
    destruct (instancia_ValueError e);
      [ | destruct (instancia_sqlite3_Error e) ];
      cbn [fst snd eventos print]; rewrite Hev; reflexivity.
Qed.

(** * Further properties of the program *)

(** ** Record normalizer *)

Lemma estruturar_dados_nao_objeto v amb st :
  (forall d, v <> PDict d) ->
  estruturar_dados v amb st = (Excecao AttributeError, st).
Proof.
  intros Hv. destruct v; try reflexivity. by destruct (Hv d).
Qed.

(** X1: [estruturar_dados] returns exactly on the well-shaped objects:
    on anything else (a payload that is no object, a section that is
    present but no object, a [weather] that is no list starting with an
    object) it raises; and whenever it raises, it does so before reading
    the clock, leaving the state as it was. *)
Theorem estruturar_dados_retorna_sse_bem_formado v amb st :
  ((exists r st', estruturar_dados v amb st = (Retorno r, st'))
   <-> exists d, v = PDict d /\ bem_formado d = true)
  /\ (forall e st', estruturar_dados v amb st = (Excecao e, st') -> st' = st).
Proof.
  destruct v as [| | | | | |d];
    try (rewrite estruturar_dados_nao_objeto by discriminate;
         split; [ split; [ intros (? & ? & [=]) | intros (? & [=] & _) ]
                | by intros ? ? [= _ <-] ]).
  destruct (bem_formado d) eqn:Hbem.
  - rewrite estruturar_dados_projeta by done. split.
    + split; [ intros _; by exists d | intros _; by eauto ].
    + intros ? ? [=].
  - destruct (estruturar_dados_mal_formado d amb st Hbem) as [e He].
    rewrite He. split.
    + split; [ intros (? & ? & [=]) | intros (d' & [= <-] & Hd') ].
      congruence.
    + by intros ? ? [= _ <-].
Qed.

(** X2: on a well-shaped object, a value present at a source path is
    copied into its field as it is, whatever its JSON type, [name]
    included; and [data_hora] is the reading of the clock, not the
    provider's [dt]. *)
Theorem estruturar_dados_repassa_valores d amb st :
  bem_formado d = true ->
  exists r,
    estruturar_dados (PDict d) amb st = (Retorno r, apos_relogio st)
    /\ (forall v, buscar "name" d = Some v -> cidade r = v)
    /\ Forall (fun cf : (dados -> pyval) * _ =>
                 forall v, cf.2 d = Some v -> cf.1 r = v) fontes
    /\ data_hora r = PStr (relogio amb (tique st)).
Proof.
  intros Hbem. eexists. split; [ by apply estruturar_dados_projeta | ].
  split; [ intros v Hv; cbn [cidade]; by rewrite Hv | ].
  split; [ | reflexivity ].
  unfold fontes.
  repeat (apply Forall_cons; split;
          [ cbn [fst snd pais temperatura sensacao_termica temp_minima
                 temp_maxima pressao umidade descricao velocidade_vento
                 nuvens timestamp_api];
            intros v Hv; by rewrite Hv | ]).
  constructor.
Qed.

Lemma estruturar_dados_repassa_valores_witness :
  bem_formado objeto_london = true
  /\ exists r,
       estruturar_dados (PDict objeto_london) ambiente_mudo
         (estado_inicial ∅)
       = (Retorno r, apos_relogio (estado_inicial ∅))
       /\ (forall v, buscar "name" objeto_london = Some v -> cidade r = v)
       /\ Forall (fun cf : (dados -> pyval) * _ =>
                    forall v, cf.2 objeto_london = Some v -> cf.1 r = v)
            fontes
       /\ data_hora r
          = PStr (relogio ambiente_mudo (tique (estado_inicial ∅))).
Proof.
  split; [ reflexivity | ].
  apply (estruturar_dados_repassa_valores objeto_london ambiente_mudo
           (estado_inicial ∅)).
  reflexivity.
Defined.

(** ** Weather client *)

(** The client, outcome by outcome. *)
Lemma obter_dados_clima_casos cidade api_key amb st :
  let url := montar_url cidade api_key in
  match rede amb url with
  | Respondeu (Resposta sc (Some v)) =>
      if sc =? 200 then
        obter_dados_clima cidade api_key amb st
        = (Retorno v,
           apos_requisicao st url
             [ linha_inicio cidade;
               [Lit "✓ Dados obtidos com sucesso! (Status: ";
                Fmt (PInt sc); Lit ")"] ])
      else
        exists r linhas,
          obter_dados_clima cidade api_key amb st
          = (r, apos_requisicao st url linhas)
          /\ (r = Retorno PNone \/ r = Excecao AttributeError)
  | _ =>
      exists linhas,
        obter_dados_clima cidade api_key amb st
        = (Retorno PNone, apos_requisicao st url linhas)
  end.
Proof.
  cbv zeta.
  destruct (rede amb (montar_url cidade api_key)) as [[sc [v|]]| |] eqn:Hrede.
  - destruct (sc =? 200) eqn:Hsc.
    + apply Z.eqb_eq in Hsc as ->.
      by apply obter_dados_clima_sucesso.
    + apply Z.eqb_neq in Hsc.
      destruct v as [| | | | | |d];
        try (do 2 eexists; split;
             [ by eapply obter_dados_clima_corpo_nao_objeto | by right ]).
      do 2 eexists. split; [ | by left ].
      apply obter_dados_clima_falha. rewrite Hrede. cbn [diagnostico].
      apply Z.eqb_neq in Hsc. rewrite Hsc. reflexivity.
  - destruct (sc =? 200) eqn:Hsc.
    + apply Z.eqb_eq in Hsc as ->. eexists.
      unfold obter_dados_clima, tentar, response_json.
      unfold mbind, M_bind, print, requests_get, mret, M_ret, levantar.
      rewrite Hrede. unfold apos_requisicao, linha_inicio.
      cbn [status_code corpo Z.eqb Pos.eqb instancia_RequestException
           arquivo eventos requisicoes console tique].
      by rewrite <- !app_assoc.
    + eexists. apply obter_dados_clima_falha. rewrite Hrede.
      cbn [diagnostico]. rewrite Hsc. reflexivity.
  - eexists. apply obter_dados_clima_falha. by rewrite Hrede.
  - eexists. apply obter_dados_clima_falha. by rewrite Hrede.
Qed.

(** X3: the client returns a value other than [None] only when the
    provider answered 200, and then the value is the parsed body itself:
    no payload is ever made up from an error answer, a timeout or a
    transport failure. *)
Theorem obter_dados_clima_payload_so_de_200 cidade api_key amb st v st' :
  obter_dados_clima cidade api_key amb st = (Retorno v, st') ->
  v <> PNone ->
  rede amb (montar_url cidade api_key) = Respondeu (Resposta 200 (Some v)).
Proof.
  intros Hobter Hv.
  pose proof (obter_dados_clima_casos cidade api_key amb st) as Hcasos.
  cbv zeta in Hcasos.
  destruct (rede amb (montar_url cidade api_key)) as [[sc [b|]]| |].
  - destruct (sc =? 200) eqn:Hsc.
    + apply Z.eqb_eq in Hsc as ->. congruence.
    + destruct Hcasos as (r & linhas & Hr & [-> | ->]); congruence.
  - destruct Hcasos as [linhas Hr]. congruence.
  - destruct Hcasos as [linhas Hr]. congruence.
  - destruct Hcasos as [linhas Hr]. congruence.
Qed.

Lemma obter_dados_clima_payload_so_de_200_witness :
  obter_dados_clima "London" API_KEY (ambiente_london payload_london)
    (estado_inicial ∅)
  = (Retorno payload_london,
     (obter_dados_clima "London" API_KEY (ambiente_london payload_london)
        (estado_inicial ∅)).2)
  /\ payload_london <> PNone
  /\ rede (ambiente_london payload_london) (montar_url "London" API_KEY)
     = Respondeu (Resposta 200 (Some payload_london)).
Proof.
  assert (H1 :
    obter_dados_clima "London" API_KEY (ambiente_london payload_london)
      (estado_inicial ∅)
    = (Retorno payload_london,
       (obter_dados_clima "London" API_KEY (ambiente_london payload_london)
          (estado_inicial ∅)).2)) by reflexivity.
  assert (H2 : payload_london <> PNone) by discriminate.
  split; [ exact H1 | ]. split; [ exact H2 | ].
  exact (obter_dados_clima_payload_so_de_200 "London" API_KEY
           (ambiente_london payload_london) (estado_inicial ∅)
           payload_london _ H1 H2).
Defined.



(** ** Display *)


(** ** Store *)

Lemma sql_insert_retorno nomes params t t' :
  sql_insert nomes params t = Retorno t' ->
  exists linha,
    t' = {| tb_colunas := tb_colunas t;
            tb_linhas := <[maior_id t + 1 := linha]> (tb_linhas t);
            tb_seq := maior_id t + 1 |}
    /\ maior_id t + 1 <= INT64_MAX.
Proof.
  unfold sql_insert.
  destruct (negb (forallb (tem_coluna t) nomes)); [ discriminate | ].
  destruct (vincular_todos params) as [valores|e]; [ | discriminate ].
  destruct (INT64_MAX <? maior_id t + 1) eqn:Hid; [ discriminate | ].
  destruct (viola_nao_nulo t _); [ discriminate | ].
  intros [= <-]. eexists. split; [ reflexivity | ].
  by apply Z.ltb_ge in Hid.
Qed.

Lemma inserir_dados_banco_casos conn d amb st :
  inserir_dados_banco conn d amb st
  = if conexao_aberta conn (eventos st) then
      match arquivo st !! NOME_TABELA with
      | None => (Excecao SqliteOperationalError, st)
      | Some t =>
          match sql_insert colunas_insert (parametros d) t with
          | Retorno t' => (Retorno tt, apos_gravar st t' [linha_inserido d])
          | Excecao e => (Excecao e, st)
          end
      end
    else (Excecao SqliteProgrammingError, st).
Proof.
  destruct (conexao_aberta conn (eventos st)) eqn:Hconn;
    [ | by apply inserir_dados_banco_fechada ].
  destruct (arquivo st !! NOME_TABELA) as [t|] eqn:Ht;
    [ by apply inserir_dados_banco_eq
    | by apply inserir_dados_banco_sem_tabela ].
Qed.

(** X6: an append that fails is no append at all: whatever was raised
    (closed connection, missing table or column, a value that cannot be
    bound, an exhausted key sequence, a NULL in a [NOT NULL] column), the
    state is exactly the state before: no row, no change of the key
    sequence, no line printed. *)
Theorem inserir_dados_banco_falha_nao_altera conn d amb st e st' :
  inserir_dados_banco conn d amb st = (Excecao e, st') -> st' = st.
Proof.
  rewrite inserir_dados_banco_casos.
  destruct (conexao_aberta conn (eventos st)); [ | by intros [= _ <-] ].
  destruct (arquivo st !! NOME_TABELA) as [t|]; [ | by intros [= _ <-] ].
  destruct (sql_insert colunas_insert (parametros d) t);
    [ discriminate | by intros [= _ <-] ].
Qed.

Lemma inserir_dados_banco_falha_nao_altera_witness :
  inserir_dados_banco 0 dados_sem_cidade ambiente_mudo estado_aberto
  = (Excecao SqliteIntegrityError, estado_aberto)
  /\ estado_aberto = estado_aberto.
Proof.
  assert (H : inserir_dados_banco 0 dados_sem_cidade ambiente_mudo
                estado_aberto
              = (Excecao SqliteIntegrityError, estado_aberto))
    by reflexivity.
  split; [ exact H | ].
  exact (inserir_dados_banco_falha_nao_altera 0 dados_sem_cidade
           ambiente_mudo estado_aberto SqliteIntegrityError estado_aberto H).
Defined.

(** X7: an append that succeeds only appends, on a table of any columns:
    the table gets exactly one new row, under the key one above the
    largest key ever given out, which no stored row has and which is
    above the key of every stored row; the columns and every stored row
    are as they were; the key sequence moves to the new key; and the one
    line of confirmation is printed. *)
Theorem inserir_dados_banco_so_acrescenta conn d amb st st' :
  inserir_dados_banco conn d amb st = (Retorno tt, st') ->
  exists t linha,
    conexao_aberta conn (eventos st) = true
    /\ arquivo st !! NOME_TABELA = Some t
    /\ st' = apos_gravar st
               {| tb_colunas := tb_colunas t;
                  tb_linhas := <[maior_id t + 1 := linha]> (tb_linhas t);
                  tb_seq := maior_id t + 1 |}
               [linha_inserido d]
    /\ tb_linhas t !! (maior_id t + 1) = None
    /\ (forall id l, tb_linhas t !! id = Some l -> id < maior_id t + 1)
    /\ tb_seq t < maior_id t + 1 <= INT64_MAX.
Proof.
  rewrite inserir_dados_banco_casos.
  destruct (conexao_aberta conn (eventos st)); [ | discriminate ].
  destruct (arquivo st !! NOME_TABELA) as [t|]; [ | discriminate ].
  destruct (sql_insert colunas_insert (parametros d) t) as [t'|]
    eqn:Hins; [ | discriminate ].
  intros [= <-].
  destruct (sql_insert_retorno _ _ _ _ Hins) as (linha & -> & Hmax).
  exists t, linha. split; [ done | ]. split; [ done | ].
  split; [ done | ]. split; [ apply id_novo_livre | ].
  split.
  - intros id l Hl. apply maior_id_linha in Hl. lia.
  - pose proof (maior_id_seq t). lia.
Qed.

Lemma inserir_dados_banco_so_acrescenta_witness :
  inserir_dados_banco 0 dados_london ambiente_mudo estado_aberto
  = (Retorno tt,
     (inserir_dados_banco 0 dados_london ambiente_mudo estado_aberto).2)
  /\ exists t linha,
       conexao_aberta 0 (eventos estado_aberto) = true
       /\ arquivo estado_aberto !! NOME_TABELA = Some t
       /\ (inserir_dados_banco 0 dados_london ambiente_mudo estado_aberto).2
          = apos_gravar estado_aberto
              {| tb_colunas := tb_colunas t;
                 tb_linhas := <[maior_id t + 1 := linha]> (tb_linhas t);
                 tb_seq := maior_id t + 1 |}
              [linha_inserido dados_london]
       /\ tb_linhas t !! (maior_id t + 1) = None
       /\ (forall id l, tb_linhas t !! id = Some l -> id < maior_id t + 1)
       /\ tb_seq t < maior_id t + 1 <= INT64_MAX.
Proof.
  assert (H : inserir_dados_banco 0 dados_london ambiente_mudo estado_aberto
              = (Retorno tt,
                 (inserir_dados_banco 0 dados_london ambiente_mudo
                    estado_aberto).2))
    by (vm_compute; reflexivity).
  split; [ exact H | ].
  exact (inserir_dados_banco_so_acrescenta 0 dados_london ambiente_mudo
           estado_aberto _ H).
Defined.

Lemma conexao_fechada_apos_close conn evs :
  conexao_aberta conn (evs ++ [Fechou conn]) = false.
Proof.
  unfold conexao_aberta. rewrite !existsb_app. cbn [existsb fechou].
  rewrite Nat.eqb_refl, orb_true_l, orb_true_r. apply andb_false_r.
Qed.

(** X8: once a connection is closed, an append or a listing through it
    raises [sqlite3.ProgrammingError] and changes nothing. *)
Theorem uso_apos_close_e_recusado conn d limite amb st :
  let fechado := (conn_close conn amb st).2 in
  inserir_dados_banco conn d amb fechado
  = (Excecao SqliteProgrammingError, fechado)
  /\ consultar_dados_banco conn limite amb fechado
     = (Excecao SqliteProgrammingError, fechado).
Proof.
  cbv zeta.
  assert (Hf : conexao_aberta conn (eventos (conn_close conn amb st).2)
               = false) by apply conexao_fechada_apos_close.
  split; [ by apply inserir_dados_banco_fechada | ].
  unfold consultar_dados_banco, execute_select, exigir_aberta.
  unfold mbind, M_bind. by rewrite Hf.
Qed.






(** ** Whole runs *)

(** [main], in terms of its loop and listing: it never raises. *)
Lemma main_eq amb st :
  main amb st
  = (Retorno tt,
     desfecho (novo_identificador (eventos st))
       (coletar_e_consultar (novo_identificador (eventos st)) API_KEY amb
          (estado_no_laco st))).
Proof.
  unfold main.
  erewrite bind_retorno by apply print_eq.
  erewrite bind_retorno by apply print_eq.
  unfold finalmente, tentar.
  erewrite bind_retorno by apply carregar_configuracoes_eq.
  erewrite bind_retorno by apply criar_banco_dados_eq.
  repeat match goal with
    | |- context [ eventos (imprimiu ?s ?l) ] =>
        change (eventos (imprimiu s l)) with (eventos s)
    end.
  match goal with
  | |- context [ mbind _ _ amb ?s ] =>
      replace s with (estado_no_laco st)
        by (unfold estado_no_laco, imprimiu;
            cbn [arquivo eventos requisicoes console tique];
            by rewrite <- !app_assoc)
  end.
  set (h := novo_identificador (eventos st)).
  unfold coletar_e_consultar.
  destruct (para_cada (processar_cidade h API_KEY) cidades amb
              (estado_no_laco st)) as [[[]|e] st2] eqn:Hlaco.
  - do 2 rewrite (bind_retorno _ _ _ _ _ _ Hlaco). cbn beta.
    destruct (consultar_dados_banco h 10 amb st2) as [[regs|e] st3] eqn:Hc.
    + rewrite (bind_retorno _ _ _ _ _ _ Hc). cbn beta.
      unfold desfecho, conn_close.
      erewrite bind_retorno by reflexivity.
      erewrite bind_retorno by apply print_eq.
      rewrite !print_eq, !imprimiu_imprimiu. reflexivity.
    + rewrite (bind_excecao _ _ _ _ _ _ Hc).
      unfold desfecho, linha_de_erro.
      destruct (instancia_ValueError e);
        [ | destruct (instancia_sqlite3_Error e) ];
        rewrite !print_eq, !imprimiu_imprimiu; reflexivity.
  - do 2 rewrite (bind_excecao _ _ _ _ _ _ Hlaco).
    unfold desfecho, linha_de_erro.
    destruct (instancia_ValueError e);
      [ | destruct (instancia_sqlite3_Error e) ];
      rewrite !print_eq, !imprimiu_imprimiu; reflexivity.
Qed.

(** X10: [main] never raises.  For every environment and every state it
    returns, and the last line it prints is the separator; the line
    before it is the line of success when the loop and the listing
    returned, and otherwise the error line of the first [except] clause
    that matches what they raised. *)
Theorem main_sempre_retorna amb st :
  exists st',
    main amb st = (Retorno tt, st')
    /\ take 2 (reverse (console st'))
       = [ linha_final;
           match (coletar_e_consultar (novo_identificador (eventos st))
                    API_KEY amb (estado_no_laco st)).1 with
           | Retorno _ => [Lit "✓ Banco de dados: projeto_rpa.db"]
           | Excecao e => linha_de_erro e
           end ].
Proof.
  eexists. split; [ apply main_eq | ].
  destruct (coletar_e_consultar _ _ _ _) as [[regs|e] st2];
    unfold desfecho, imprimiu; cbn [console fst];
    rewrite reverse_app; reflexivity.
Qed.

(** *** The rows of the table *)

#[local] Instance conserva_linhas_refl : Reflexive conserva_linhas.
Proof.
  intros st. split; [ done | ]. intros t Ht. exists t.
  split; [ done | ]. split; [ done | ]. split; [ done | lia ].
Qed.

#[local] Instance conserva_linhas_trans : Transitive conserva_linhas.
Proof.
  intros st1 st2 st3 [Ho12 Ht12] [Ho23 Ht23]. split.
  - intros nome Hnome. by rewrite Ho23, Ho12.
  - intros t1 Ht1.
    destruct (Ht12 t1 Ht1) as (t2 & Ht2 & Hc2 & Hl2 & Hm2).
    destruct (Ht23 t2 Ht2) as (t3 & Ht3 & Hc3 & Hl3 & Hm3).
    exists t3. split; [ done | ]. split; [ congruence | ].
    split; [ auto | lia ].
Qed.

Lemma conserva_linhas_mesmo_arquivo st st' :
  arquivo st' = arquivo st -> conserva_linhas st st'.
Proof.
  intros Harq. unfold conserva_linhas. rewrite Harq.
  apply conserva_linhas_refl.
Qed.

Lemma maior_id_apos_insercao t linha :
  maior_id t + 1
  <= maior_id {| tb_colunas := tb_colunas t;
                 tb_linhas := <[maior_id t + 1 := linha]> (tb_linhas t);
                 tb_seq := maior_id t + 1 |}.
Proof.
  match goal with |- _ <= maior_id ?t' => apply (maior_id_seq t') end.
Qed.

Lemma conserva_linhas_inserir conn d :
  respeita conserva_linhas (inserir_dados_banco conn d).
Proof.
  intros amb st. rewrite inserir_dados_banco_casos.
  destruct (conexao_aberta conn (eventos st)); [ | reflexivity ].
  destruct (arquivo st !! NOME_TABELA) as [t|] eqn:Ht; [ | reflexivity ].
  destruct (sql_insert colunas_insert (parametros d) t) as [t'|] eqn:Hins;
    [ | reflexivity ].
  destruct (sql_insert_retorno _ _ _ _ Hins) as (linha & -> & _).
  cbn [snd]. split.
  - intros nome Hnome. cbn [arquivo apos_gravar].
    by rewrite lookup_insert_ne.
  - intros t0 Ht0. rewrite Ht in Ht0. injection Ht0 as <-.
    eexists. cbn [arquivo apos_gravar]. rewrite lookup_insert_eq.
    split; [ reflexivity | ]. split; [ reflexivity | ]. split.
    + intros id l Hl. cbn [tb_linhas]. rewrite lookup_insert_ne; [ done | ].
      apply maior_id_linha in Hl. lia.
    + pose proof (maior_id_apos_insercao t linha). lia.
Qed.

Lemma conserva_linhas_coletar_e_consultar conn k :
  respeita conserva_linhas (coletar_e_consultar conn k).
Proof.
  apply respeita_coletar_e_consultar; try apply _;
    try (intros; intros amb st; apply conserva_linhas_mesmo_arquivo;
         reflexivity).
  - intros url amb st. apply conserva_linhas_mesmo_arquivo.
    unfold requests_get. by destruct (rede amb url).
  - apply conserva_linhas_inserir.
Qed.

Lemma conserva_linhas_estado_no_laco st :
  conserva_linhas st (estado_no_laco st).
Proof.
  split.
  - intros nome Hnome. cbn [arquivo estado_no_laco]. unfold apos_create.
    destruct (arquivo st !! NOME_TABELA); [ done | ].
    by rewrite lookup_insert_ne.
  - intros t Ht. exists t. cbn [arquivo estado_no_laco]. unfold apos_create.
    rewrite Ht. split; [ done | ]. split; [ done | ]. split; [ done | lia ].
Qed.

Lemma arquivo_desfecho h saida : arquivo (desfecho h saida) = arquivo saida.2.
Proof. by destruct saida as [[|] ?]. Qed.

(** X11: a run only appends.  Whatever the network answers and however
    the run ends, every table of the file other than [dados_clima] is
    untouched, and [dados_clima], when it was there before the run, is
    there after it with the same columns and with every row it had, under
    the same key and with the same cells; the largest key given out does
    not go down, so no key is given twice. *)
Theorem main_so_acrescenta amb st :
  (forall nome, nome <> NOME_TABELA ->
     arquivo (main amb st).2 !! nome = arquivo st !! nome)
  /\ (forall t,
        arquivo st !! NOME_TABELA = Some t ->
        exists t',
          arquivo (main amb st).2 !! NOME_TABELA = Some t'
          /\ tb_colunas t' = tb_colunas t
          /\ (forall id l,
                tb_linhas t !! id = Some l -> tb_linhas t' !! id = Some l)
          /\ maior_id t <= maior_id t').
Proof.
  change (conserva_linhas st (main amb st).2).
  rewrite main_eq. cbn [snd].
  transitivity (estado_no_laco st);
    [ apply conserva_linhas_estado_no_laco | ].
  etransitivity; [ apply conserva_linhas_coletar_e_consultar | ].
  apply conserva_linhas_mesmo_arquivo, arquivo_desfecho.
Qed.

(** *** The number of rows *)

#[local] Instance cresce_zero_refl : Reflexive (cresce 0).
Proof. intros st. unfold cresce. lia. Qed.

#[local] Instance cresce_zero_trans : Transitive (cresce 0).
Proof. unfold cresce. intros st1 st2 st3 H12 H23. lia. Qed.

Lemma cresce_mesmo_arquivo st st' :
  arquivo st' = arquivo st -> cresce 0 st st'.
Proof. intros H. unfold cresce, numero_de_linhas. rewrite H. lia. Qed.

Lemma cresce_bind {A B} n k (m : M A) (f : A -> M B) :
  respeita (cresce n) m -> (forall a, respeita (cresce k) (f a)) ->
  respeita (cresce (n + k)) (m ≫= f).
Proof.
  intros Hm Hf amb st. unfold mbind, M_bind.
  specialize (Hm amb st).
  destruct (m amb st) as [[a|e] st'].
  - specialize (Hf a amb st'). unfold cresce in *. cbn [snd] in *.
    destruct (f a amb st') as [r st'']. cbn [snd] in *. lia.
  - unfold cresce in *. cbn [snd] in *. lia.
Qed.

Lemma cresce_fraco {A} n k (m : M A) :
  (n <= k)%nat -> respeita (cresce n) m -> respeita (cresce k) m.
Proof.
  intros Hnk Hm amb st. specialize (Hm amb st). unfold cresce in *. lia.
Qed.

Lemma cresce_print l : respeita (cresce 0) (print l).
Proof. intros amb st. by apply cresce_mesmo_arquivo. Qed.

Lemma cresce_datetime_now : respeita (cresce 0) datetime_now.
Proof. intros amb st. by apply cresce_mesmo_arquivo. Qed.

Lemma cresce_requests_get url : respeita (cresce 0) (requests_get url).
Proof.
  intros amb st. apply cresce_mesmo_arquivo.
  unfold requests_get. by destruct (rede amb url).
Qed.

Lemma cresce_inserir conn d :
  respeita (cresce 1) (inserir_dados_banco conn d).
Proof.
  intros amb st. rewrite inserir_dados_banco_casos.
  destruct (conexao_aberta conn (eventos st));
    [ | unfold cresce; cbn [snd]; lia ].
  destruct (arquivo st !! NOME_TABELA) as [t|] eqn:Ht;
    [ | unfold cresce; cbn [snd]; lia ].
  destruct (sql_insert colunas_insert (parametros d) t) as [t'|] eqn:Hins;
    [ | unfold cresce; cbn [snd]; lia ].
  destruct (sql_insert_retorno _ _ _ _ Hins) as (linha & -> & _).
  unfold cresce, numero_de_linhas. cbn [snd arquivo apos_gravar].
  rewrite Ht, lookup_insert_eq. cbn [tb_linhas].
  rewrite map_size_insert_None by apply id_novo_livre. lia.
Qed.

Lemma cresce_processar_cidade conn k c :
  respeita (cresce 1) (processar_cidade conn k c).
Proof.
  unfold processar_cidade.
  apply (cresce_bind 0 1); [ apply cresce_print | intros _ ].
  apply (cresce_bind 0 1);
    [ apply respeita_obter_dados_clima;
      auto using cresce_print, cresce_requests_get; apply _
    | intros v ].
  apply (cresce_bind 1 0); [ | intros _; apply cresce_print ].
  destruct (verdadeiro v);
    [ | apply (cresce_fraco 0 1); [ lia | ];
        apply respeita_mret; apply _ ].
  apply (cresce_bind 0 1);
    [ apply respeita_estruturar_dados;
      auto using cresce_print, cresce_datetime_now; apply _
    | intros d ].
  apply (cresce_bind 0 1);
    [ apply respeita_exibir_dados_formatados;
      auto using cresce_print; apply _
    | intros _ ].
  apply cresce_inserir.
Qed.

Lemma cresce_para_cada conn k cs :
  respeita (cresce (length cs)) (para_cada (processar_cidade conn k) cs).
Proof.
  induction cs as [|c cs IH]; cbn [para_cada length].
  - apply respeita_mret. apply _.
  - apply (cresce_bind 1 (length cs));
      [ apply cresce_processar_cidade | intros _; exact IH ].
Qed.

Lemma cresce_coletar_e_consultar conn k :
  respeita (cresce 5) (coletar_e_consultar conn k).
Proof.
  unfold coletar_e_consultar.
  apply (cresce_bind 5 0); [ apply (cresce_para_cada conn k cidades) | ].
  intros _. apply respeita_consultar_dados_banco;
    auto using cresce_print; apply _.
Qed.

Lemma numero_de_linhas_estado_no_laco st :
  numero_de_linhas (estado_no_laco st) = numero_de_linhas st.
Proof.
  unfold numero_de_linhas. cbn [arquivo estado_no_laco]. unfold apos_create.
  destruct (arquivo st !! NOME_TABELA) as [t|] eqn:Ht; [ by rewrite Ht | ].
  by rewrite lookup_insert_eq.
Qed.

(** X12: a run adds at most one row per city: after [main] the table has
    at least the rows it had and at most five more, whatever the network
    answered and however the run ended. *)
Theorem main_acrescenta_no_maximo_cinco amb st :
  (numero_de_linhas st <= numero_de_linhas (main amb st).2
   <= numero_de_linhas st + 5)%nat.
Proof.
  rewrite main_eq. cbn [snd].
  pose proof (cresce_coletar_e_consultar (novo_identificador (eventos st))
                API_KEY amb (estado_no_laco st)) as H.
  unfold cresce in H. rewrite numero_de_linhas_estado_no_laco in H.
  assert (Hn : forall h saida,
            numero_de_linhas (desfecho h saida) = numero_de_linhas saida.2)
    by (intros h saida; unfold numero_de_linhas;
        by rewrite arquivo_desfecho).
  rewrite Hn. exact H.
Qed.

(** *** The requests *)

#[local] Instance mesmas_requisicoes_refl : Reflexive mesmas_requisicoes.
Proof. by intros st. Qed.

#[local] Instance mesmas_requisicoes_trans : Transitive mesmas_requisicoes.
Proof. unfold mesmas_requisicoes. intros st1 st2 st3 H12 H23. congruence. Qed.

Lemma mesmas_requisicoes_print l : respeita mesmas_requisicoes (print l).
Proof. by intros amb st. Qed.

Lemma mesmas_requisicoes_datetime_now :
  respeita mesmas_requisicoes datetime_now.
Proof. by intros amb st. Qed.

Lemma mesmas_requisicoes_inserir conn d :
  respeita mesmas_requisicoes (inserir_dados_banco conn d).
Proof.
  intros amb st. rewrite inserir_dados_banco_casos.
  destruct (conexao_aberta conn (eventos st)); [ | reflexivity ].
  destruct (arquivo st !! NOME_TABELA) as [t|]; [ | reflexivity ].
  by destruct (sql_insert colunas_insert (parametros d) t).
Qed.

Lemma obter_dados_clima_estado c k amb st :
  exists r linhas,
    obter_dados_clima c k amb st
    = (r, apos_requisicao st (montar_url c k) linhas).
Proof.
  pose proof (obter_dados_clima_casos c k amb st) as Hcasos.
  cbv zeta in Hcasos.
  destruct (rede amb (montar_url c k)) as [[sc [b|]]| |].
  - destruct (sc =? 200); [ by eauto | ].
    destruct Hcasos as (r & linhas & Hr & _). by eauto.
  - destruct Hcasos as [linhas Hr]. by eauto.
  - destruct Hcasos as [linhas Hr]. by eauto.
  - destruct Hcasos as [linhas Hr]. by eauto.
Qed.

(** What follows the fetch in the loop body makes no request. *)
Lemma mesmas_requisicoes_apos_obter conn (v : pyval) :
  respeita mesmas_requisicoes
    ((if verdadeiro v then
        dados_estruturados ← estruturar_dados v;
        exibir_dados_formatados dados_estruturados;;
        inserir_dados_banco conn dados_estruturados
      else mret tt) ≫= fun _ => print []).
Proof.
  apply respeita_bind;
    [ apply _ | | intros _; apply mesmas_requisicoes_print ].
  destruct (verdadeiro v); [ | apply respeita_mret; apply _ ].
  apply respeita_bind;
    [ apply _
    | apply respeita_estruturar_dados;
      auto using mesmas_requisicoes_print, mesmas_requisicoes_datetime_now;
      apply _
    | intros d ].
  apply respeita_bind;
    [ apply _
    | apply respeita_exibir_dados_formatados;
      auto using mesmas_requisicoes_print; apply _
    | intros _; apply mesmas_requisicoes_inserir ].
Qed.

(** The loop body makes exactly one request, the one of its city,
    however it ends. *)
Lemma processar_cidade_requisicoes conn k c amb st :
  requisicoes (processar_cidade conn k c amb st).2
  = requisicoes st ++ [montar_url c k].
Proof.
  unfold processar_cidade.
  erewrite bind_retorno by apply print_eq.
  destruct (obter_dados_clima_estado c k amb
              (imprimiu st [[Lit (nl +:+ "--- Processando: "); Lit c;
                             Lit " ---"]]))
    as ([v|e] & linhas & Hobter).
  - erewrite bind_retorno by exact Hobter.
    rewrite (mesmas_requisicoes_apos_obter conn v amb _). reflexivity.
  - erewrite bind_excecao by exact Hobter. reflexivity.
Qed.

Lemma para_cada_requisicoes conn k cs amb st :
  exists n,
    (n <= length cs)%nat
    /\ requisicoes (para_cada (processar_cidade conn k) cs amb st).2
       = requisicoes st ++ map (fun c => montar_url c k) (take n cs)
    /\ (forall u st',
          para_cada (processar_cidade conn k) cs amb st = (Retorno u, st') ->
          n = length cs).
Proof.
  revert st. induction cs as [|c cs IH]; intros st.
  - exists O. cbn [para_cada length take map]. rewrite app_nil_r.
    by repeat split.
  - cbn [para_cada].
    pose proof (processar_cidade_requisicoes conn k c amb st) as Hc.
    destruct (processar_cidade conn k c amb st) as [[[]|e] st1] eqn:Hproc;
      cbn [snd] in Hc.
    + destruct (IH st1) as (n & Hn & Hreq & Hret).
      exists (S n). split; [ cbn [length]; lia | ].
      rewrite (bind_retorno _ _ _ _ _ _ Hproc). cbn beta.
      split.
      * rewrite Hreq, Hc. cbn [take map]. by rewrite <- app_assoc.
      * intros u st' Hu. cbn [length]. f_equal. by eapply Hret.
    + exists 1%nat. split; [ cbn [length]; lia | ].
      rewrite (bind_excecao _ _ _ _ _ _ Hproc). cbn [snd take map].
      rewrite take_0. split; [ exact Hc | discriminate ].
Qed.

(** X13: one request per city, in the order of the list, and no retry.
    The URLs a run requests are those of the first [n] cities of the
    list, each once and in order, for some [n] up to five; [n] is five
    whenever the loop and the listing returned. *)
Theorem main_requisita_um_prefixo_das_cidades amb st :
  exists n,
    (n <= 5)%nat
    /\ requisicoes (main amb st).2
       = requisicoes st
         ++ map (fun c => montar_url c API_KEY) (take n cidades)
    /\ (forall regs st2,
          coletar_e_consultar (novo_identificador (eventos st)) API_KEY amb
            (estado_no_laco st) = (Retorno regs, st2) ->
          n = 5%nat).
Proof.
  rewrite main_eq. cbn [snd].
  set (h := novo_identificador (eventos st)).
  destruct (para_cada_requisicoes h API_KEY cidades amb (estado_no_laco st))
    as (n & Hn & Hreq & Hret).
  exists n. split; [ exact Hn | ].
  assert (Hd : forall saida,
            requisicoes (desfecho h saida) = requisicoes saida.2)
    by (by intros [[|] ?]).
  rewrite Hd. unfold coletar_e_consultar.
  destruct (para_cada (processar_cidade h API_KEY) cidades amb
              (estado_no_laco st)) as [[[]|e] st1] eqn:Hlaco;
    cbn [snd] in Hreq.
  - rewrite (bind_retorno _ _ _ _ _ _ Hlaco). cbn beta.
    assert (Hcons : requisicoes (consultar_dados_banco h 10 amb st1).2
                    = requisicoes st1).
    { apply (respeita_consultar_dados_banco mesmas_requisicoes);
        auto using mesmas_requisicoes_print; apply _. }
    split; [ by rewrite Hcons, Hreq | ].
    intros regs st2 _. by eapply Hret.
  - rewrite (bind_excecao _ _ _ _ _ _ Hlaco). cbn [snd].
    split; [ exact Hreq | discriminate ].
Qed.

(** ** Loop body *)

(** X14: a 200 answer whose body is falsy ([null], [false], [0], [0.0],
    the empty string, list or object) is skipped: the loop body returns
    after the line of success of the client and an empty line, without
    reading the clock, displaying or appending anything. *)
Theorem payload_falso_e_ignorado conn k c amb st v :
  rede amb (montar_url c k) = Respondeu (Resposta 200 (Some v)) ->
  verdadeiro v = false ->
  processar_cidade conn k c amb st
  = (Retorno tt,
     imprimiu
       (apos_requisicao (imprimiu st [linha_processando c])
          (montar_url c k)
          [ linha_inicio c;
            [Lit "✓ Dados obtidos com sucesso! (Status: "; Fmt (PInt 200);
             Lit ")"] ])
       [[]]).
Proof.
  intros Hrede Hfalso. unfold processar_cidade.
  erewrite bind_retorno by apply print_eq.
  erewrite bind_retorno by (by apply obter_dados_clima_sucesso).
  rewrite Hfalso. reflexivity.
Qed.

Lemma payload_falso_e_ignorado_witness :
  rede (ambiente_london (PDict [])) (montar_url "London" API_KEY)
  = Respondeu (Resposta 200 (Some (PDict [])))
  /\ verdadeiro (PDict []) = false
  /\ processar_cidade 0 API_KEY "London" (ambiente_london (PDict []))
       estado_aberto
     = (Retorno tt,
        imprimiu
          (apos_requisicao (imprimiu estado_aberto [linha_processando "London"])
             (montar_url "London" API_KEY)
             [ linha_inicio "London";
               [Lit "✓ Dados obtidos com sucesso! (Status: ";
                Fmt (PInt 200); Lit ")"] ])
          [[]]).
Proof.
  assert (H1 : rede (ambiente_london (PDict []))
                 (montar_url "London" API_KEY)
               = Respondeu (Resposta 200 (Some (PDict [])))) by reflexivity.
  assert (H2 : verdadeiro (PDict []) = false) by reflexivity.
  split; [ exact H1 | ]. split; [ exact H2 | ].
  exact (payload_falso_e_ignorado 0 API_KEY "London"
           (ambiente_london (PDict [])) estado_aberto (PDict []) H1 H2).
Defined.

Lemma falhas_absorvidas_nao_interrompem_witness :
  (forall c, c ∈ cidades ->
     is_Some (diagnostico (rede ambiente_mudo (montar_url c API_KEY))))
  /\ exists st',
       para_cada (processar_cidade 0 API_KEY) cidades ambiente_mudo
         estado_aberto = (Retorno tt, st')
       /\ arquivo st' = arquivo estado_aberto
       /\ eventos st' = eventos estado_aberto
       /\ requisicoes st'
          = requisicoes estado_aberto
            ++ map (fun c => montar_url c API_KEY) cidades.
Proof.
  assert (H : forall c, c ∈ cidades ->
            is_Some (diagnostico (rede ambiente_mudo (montar_url c API_KEY))))
    by (intros c _; by eexists).
  split; [ exact H | ].
  exact (falhas_absorvidas_nao_interrompem 0 API_KEY cidades ambiente_mudo
           estado_aberto H).
Defined.

(** ** Whole runs, continued *)

(** X17: a run keeps the table clean: when every row of [dados_clima]
    has a non-null [cidade] before [main] (and the table, if there, has
    the columns of the program), so has every row after it, whatever the
    network answered and however the run ended. *)
Theorem main_mantem_cidade_nao_nula amb st :
  invariante_cidade st -> invariante_cidade (main amb st).2.
Proof. apply main_preserva_invariante. Qed.

Lemma main_mantem_cidade_nao_nula_witness :
  invariante_cidade (estado_inicial ∅)
  /\ invariante_cidade
       (main (ambiente_london payload_london) (estado_inicial ∅)).2.
Proof.
  split; [ exact invariante_em_arquivo_novo | ].
  exact (main_mantem_cidade_nao_nula (ambiente_london payload_london)
           (estado_inicial ∅) invariante_em_arquivo_novo).
Defined.

(** *** What can be raised *)

Section Levanta.
Context (P : excecao -> Prop).

Lemma levanta_so_nunca {A} (m : M A) :
  (forall amb st, exists a st', m amb st = (Retorno a, st')) ->
  levanta_so P m.
Proof.
  intros Hm amb st e st' He. destruct (Hm amb st) as (a & st'' & Ha).
  congruence.
Qed.





Lemma levanta_so_gravar t : levanta_so P (gravar t).
Proof. apply levanta_so_nunca. intros amb st. by eauto. Qed.




End Levanta.














(** *** The run in which every city answers *)







